(** * Conversation/session state machine of the Document Guardian frontend

    A shallow embedding of the React components [FinalApp]
    (frontend/src, the conversation-aware application) and
    [ConversationSidebar], together with the single-answer [App] variant
    that talks to the analysis endpoint.

    Reading guide.
    - A component's [useState] cells are the fields of a record; a setter
      call is a record update.
    - An [async] handler is split at its [await]: the part before it runs
      when the user event is handled and registers the request as in
      flight, together with the variables the closure captured; the part
      after it runs when the reply arrives.
    - The setter calls of one handler run are applied together; after
      them the [useEffect] of [FinalApp] runs when its dependency
      [activeConversationId] has changed.
    - Replies have the shapes of the REST contract; identifiers are JSON
      numbers or strings.
    - Strings are sequences of UTF-16 code units, as in JavaScript. *)

From Stdlib Require Import NArith ZArith String Ascii.
From stdpp Require Import base decidable option numbers list gmap.

Local Open Scope Z_scope.

(** ** JavaScript strings and truthiness *)

Module Js.

Definition str := list N.

(** Code units of an ASCII literal. *)
Definition lit (s : string) : str := N_of_ascii <$> list_ascii_of_string s.

(** ECMAScript [WhiteSpace] and [LineTerminator] code points: what
    [String.prototype.trim] strips. *)
Definition is_white (c : N) : bool :=
  bool_decide (c ∈ [0x9; 0xA; 0xB; 0xC; 0xD; 0x20; 0xA0; 0x1680;
                    0x2028; 0x2029; 0x202F; 0x205F; 0x3000; 0xFEFF]%N)
  || ((0x2000 <=? c)%N && (c <=? 0x200A)%N).

Fixpoint trimStart (s : str) : str :=
  match s with
  | c :: r => if is_white c then trimStart r else s
  | [] => []
  end.

Definition trimEnd (s : str) : str := reverse (trimStart (reverse s)).

Definition trim (s : str) : str := trimEnd (trimStart s).

(** A string is truthy when it is not empty. *)
Definition truthy (s : str) : bool :=
  match s with [] => false | _ :: _ => true end.

End Js.

Abbreviation str := Js.str.
Abbreviation lit := Js.lit.

(** Identifiers come from the backend as JSON scalars. *)
Inductive Ident :=
| IdNum (n : Z)
| IdStr (s : str).

#[global] Instance Ident_eq_dec : EqDecision Ident.
Proof. solve_decision. Defined.

Definition truthy_id (i : Ident) : bool :=
  match i with
  | IdNum n => negb (n =? 0)
  | IdStr s => Js.truthy s
  end.

(** [None] stands for [null] (and [undefined]). *)
Definition truthy (o : option Ident) : bool :=
  match o with
  | Some i => truthy_id i
  | None => false
  end.

(** ** Data model *)

Record Conversation := {
  conv_id : Ident;
  conv_title : str;
  conv_message_count : Z;
  conv_updated_at : str
}.

Record Message := {
  msg_question : str;
  msg_answer : str;
  msg_task_type : str;
  msg_timestamp : str
}.

(** An entry of the unfiled [history]: [{ id: Date.now(), question, answer }]. *)
Record Entry := {
  ent_id : Z;
  ent_question : str;
  ent_answer : str
}.

#[global] Instance Conversation_eq_dec : EqDecision Conversation.
Proof. solve_decision. Defined.
#[global] Instance Message_eq_dec : EqDecision Message.
Proof. solve_decision. Defined.
#[global] Instance Entry_eq_dec : EqDecision Entry.
Proof. solve_decision. Defined.

(** ** The network *)

Inductive Method := GET | POST | PUT | DELETE.

Inductive Endpoint :=
| EConversations                 (* /conversations *)
| EConversation (cid : Ident)    (* /conversations/${cid} *)
| EUpload                        (* /upload *)
| EQuery                         (* /query *)
| EQueryIn (cid : Ident)         (* /query/${cid} *)
| EAnalyze.                      (* /analyze *)

Inductive Body :=
| NoBody
| CreateBody (title document_type : str)
| TitleBody (title : str)
| QueryBody (question : str) (document_id : option Ident) (document_type : str)
| PolicyQueryBody (question : str) (policy_id : option Ident)
| PolicyBody (policy_id : option Ident)
| FileBody (name : str).

Record Request := {
  method : Method;
  endpoint : Endpoint;
  body : Body
}.

#[global] Instance Method_eq_dec : EqDecision Method.
Proof. solve_decision. Defined.
#[global] Instance Endpoint_eq_dec : EqDecision Endpoint.
Proof. solve_decision. Defined.
#[global] Instance Body_eq_dec : EqDecision Body.
Proof. solve_decision. Defined.
#[global] Instance Request_eq_dec : EqDecision Request.
Proof. solve_decision. Defined.

(** The fields of a 2xx response body ([response.data]) that the handlers
    read.  Replies are taken to have the shapes of the REST contract. *)
Record Data := {
  data_status : str;
  data_conversations : list Conversation;
  data_conversation : Conversation;
  data_messages : list Message;
  data_answer : str;
  data_task_type : str;
  data_document_id : option Ident
}.

(** What a rejected axios promise carries: [err.response?.data?.detail]
    and [err.message]. *)
Record Failure := {
  detail : option str;
  message : str
}.

Inductive Reply :=
| Ok (d : Data)
| Failed (e : Failure).

(** [err.response?.data?.detail || err.message] *)
Definition detail_or_message (e : Failure) : str :=
  match detail e with
  | Some d => if Js.truthy d then d else message e
  | None => message e
  end.

(** The continuation of an in-flight request, with the variables its
    closure captured when the handler was called. *)
Inductive Pending :=
| PLoadConversations
| PCreate
| PDelete (conversationId : Ident) (activeConversationId : option Ident)
| PRename (conversationId : Ident) (title : str)
| PLoadMessages
| PUpload
| PAsk (activeConversationId : option Ident) (entryId : Z)
| PAnalyze (activeConversationId : option Ident) (entryId : Z).

#[global] Instance Pending_eq_dec : EqDecision Pending.
Proof. solve_decision. Defined.

(** ** Component state *)

(** [useState] cells of [FinalApp]. *)
Record App := {
  file : option str;
  question : str;
  history : list Entry;
  documentId : option Ident;
  uploading : bool;
  asking : bool;
  analyzing : bool;
  activeConversationId : option Ident;
  conversationMessages : list Message
}.

(** [useState] cells of [ConversationSidebar]. *)
Record Sidebar := {
  conversations : list Conversation;
  loading : bool;
  showModal : bool;
  editingId : option Ident;
  newTitle : str
}.

(** Both components, the requests in flight (keyed by issue number) and
    the log of every request sent so far. *)
Record World := {
  app : App;
  side : Sidebar;
  net : gmap nat Pending;
  next : nat;
  sent : list Request
}.

(** ** Setters *)

Definition with_app (f : App -> App) (w : World) : World :=
  {| app := f (app w); side := side w; net := net w; next := next w;
     sent := sent w |}.

Definition with_side (f : Sidebar -> Sidebar) (w : World) : World :=
  {| app := app w; side := f (side w); net := net w; next := next w;
     sent := sent w |}.

Definition setFile (v : option str) : World -> World :=
  with_app (fun a =>
    {| file := v; question := question a; history := history a;
       documentId := documentId a; uploading := uploading a;
       asking := asking a; analyzing := analyzing a;
       activeConversationId := activeConversationId a;
       conversationMessages := conversationMessages a |}).

Definition setQuestion (v : str) : World -> World :=
  with_app (fun a =>
    {| file := file a; question := v; history := history a;
       documentId := documentId a; uploading := uploading a;
       asking := asking a; analyzing := analyzing a;
       activeConversationId := activeConversationId a;
       conversationMessages := conversationMessages a |}).

(** [setHistory(prev => f(prev))] *)
Definition setHistory (f : list Entry -> list Entry) : World -> World :=
  with_app (fun a =>
    {| file := file a; question := question a; history := f (history a);
       documentId := documentId a; uploading := uploading a;
       asking := asking a; analyzing := analyzing a;
       activeConversationId := activeConversationId a;
       conversationMessages := conversationMessages a |}).

Definition setDocumentId (v : option Ident) : World -> World :=
  with_app (fun a =>
    {| file := file a; question := question a; history := history a;
       documentId := v; uploading := uploading a;
       asking := asking a; analyzing := analyzing a;
       activeConversationId := activeConversationId a;
       conversationMessages := conversationMessages a |}).

Definition setUploading (v : bool) : World -> World :=
  with_app (fun a =>
    {| file := file a; question := question a; history := history a;
       documentId := documentId a; uploading := v;
       asking := asking a; analyzing := analyzing a;
       activeConversationId := activeConversationId a;
       conversationMessages := conversationMessages a |}).

Definition setAsking (v : bool) : World -> World :=
  with_app (fun a =>
    {| file := file a; question := question a; history := history a;
       documentId := documentId a; uploading := uploading a;
       asking := v; analyzing := analyzing a;
       activeConversationId := activeConversationId a;
       conversationMessages := conversationMessages a |}).

Definition setAnalyzing (v : bool) : World -> World :=
  with_app (fun a =>
    {| file := file a; question := question a; history := history a;
       documentId := documentId a; uploading := uploading a;
       asking := asking a; analyzing := v;
       activeConversationId := activeConversationId a;
       conversationMessages := conversationMessages a |}).

Definition setActiveConversationId (v : option Ident) : World -> World :=
  with_app (fun a =>
    {| file := file a; question := question a; history := history a;
       documentId := documentId a; uploading := uploading a;
       asking := asking a; analyzing := analyzing a;
       activeConversationId := v;
       conversationMessages := conversationMessages a |}).

(** [setConversationMessages(prev => f(prev))] *)
Definition setConversationMessages (f : list Message -> list Message)
  : World -> World :=
  with_app (fun a =>
    {| file := file a; question := question a; history := history a;
       documentId := documentId a; uploading := uploading a;
       asking := asking a; analyzing := analyzing a;
       activeConversationId := activeConversationId a;
       conversationMessages := f (conversationMessages a) |}).

(** [setConversations(prev => f(prev))] *)
Definition setConversations (f : list Conversation -> list Conversation)
  : World -> World :=
  with_side (fun s =>
    {| conversations := f (conversations s); loading := loading s;
       showModal := showModal s; editingId := editingId s;
       newTitle := newTitle s |}).

Definition setLoading (v : bool) : World -> World :=
  with_side (fun s =>
    {| conversations := conversations s; loading := v;
       showModal := showModal s; editingId := editingId s;
       newTitle := newTitle s |}).

Definition setShowModal (v : bool) : World -> World :=
  with_side (fun s =>
    {| conversations := conversations s; loading := loading s;
       showModal := v; editingId := editingId s;
       newTitle := newTitle s |}).

Definition setEditingId (v : option Ident) : World -> World :=
  with_side (fun s =>
    {| conversations := conversations s; loading := loading s;
       showModal := showModal s; editingId := v;
       newTitle := newTitle s |}).

Definition setNewTitle (v : str) : World -> World :=
  with_side (fun s =>
    {| conversations := conversations s; loading := loading s;
       showModal := showModal s; editingId := editingId s;
       newTitle := v |}).

(** [axios.<method>(...)]: the request leaves, and the rest of the handler
    waits for its reply under a fresh number. *)
Definition issue (p : Pending) (r : Request) (w : World) : World :=
  {| app := app w; side := side w;
     net := <[next w := p]> (net w);
     next := S (next w);
     sent := sent w ++ [r] |}.

(** The reply has been taken; the continuation runs next. *)
Definition settle (k : nat) (w : World) : World :=
  {| app := app w; side := side w;
     net := delete k (net w);
     next := next w;
     sent := sent w |}.

(** ** Constants of the source *)

Definition success : str := lit "success".
Definition general : str := lit "general".
Definition unknown : str := lit "unknown".
Definition analysis : str := lit "analysis".

(** ["⏳ Processing..."] (U+23F3 is the hourglass) *)
Definition processing : str := 0x23F3%N :: lit " Processing...".
(** ["⏳ Analyzing document..."] *)
Definition analyzing_document : str := 0x23F3%N :: lit " Analyzing document...".
(** ["🔍 Comprehensive Analysis"] (U+1F50D as a surrogate pair) *)
Definition comprehensive_analysis : str :=
  0xD83D%N :: 0xDD0D%N :: lit " Comprehensive Analysis".
(** ["Provide a comprehensive analysis of this document"] *)
Definition analysis_question : str :=
  lit "Provide a comprehensive analysis of this document".
(** ["❌ Error: "] (U+274C is the cross mark) *)
Definition error_prefix : str := 0x274C%N :: lit " Error: ".
(** ["❌ Analysis failed: "] *)
Definition analysis_failed_prefix : str := 0x274C%N :: lit " Analysis failed: ".

(** ** FinalApp *)

(** [prev.map((msg, index) => index === prev.length - 1 ? f(msg) : msg)] *)
Definition map_last {A} (f : A -> A) (prev : list A) : list A :=
  imap (fun index msg =>
          if decide (Z.of_nat index = Z.of_nat (length prev) - 1)
          then f msg else msg) prev.

(** [prev.map((h) => h.id === entryId ? { ...h, answer } : h)] *)
Definition answer_entry (entryId : Z) (answer : str) (prev : list Entry)
  : list Entry :=
  (fun h => if decide (ent_id h = entryId)
            then {| ent_id := ent_id h; ent_question := ent_question h;
                    ent_answer := answer |}
            else h) <$> prev.

Definition loadConversationMessages (conversationId : Ident) : World -> World :=
  issue PLoadMessages
    {| method := GET; endpoint := EConversation conversationId; body := NoBody |}.

Definition loadConversationMessages_then (r : Reply) (w : World) : World :=
  match r with
  | Ok d =>
      if decide (data_status d = success)
      then setConversationMessages (fun _ => data_messages d) w
      else w
  | Failed _ => w
  end.

(** The effect with dependency list [[activeConversationId]]; [before] is
    the dependency's value at the previous render. *)
Definition useEffect (before : option Ident) (w : World) : World :=
  if decide (activeConversationId (app w) = before) then w
  else
    match activeConversationId (app w) with
    | Some cid =>
        if truthy_id cid then loadConversationMessages cid w
        else setConversationMessages (fun _ => []) w
    | None => setConversationMessages (fun _ => []) w
    end.

Definition handleConversationSelect (conversationId : option Ident)
  (w : World) : World :=
  setHistory (fun _ => []) (setActiveConversationId conversationId w).

Definition handleNewConversation (conversationId : Ident) (w : World) : World :=
  setConversationMessages (fun _ => [])
    (setHistory (fun _ => [])
       (setActiveConversationId (Some conversationId) w)).

Definition handleUpload (w : World) : World :=
  match file (app w) with
  | None => w
  | Some name =>
      issue PUpload
        {| method := POST; endpoint := EUpload; body := FileBody name |}
        (setUploading true w)
  end.

Definition handleUpload_then (r : Reply) (w : World) : World :=
  setUploading false
    match r with
    | Ok d => setDocumentId (data_document_id d) w
    | Failed _ => w
    end.

(** The endpoint both [handleAsk] and [handleAnalyze] of [FinalApp] post to. *)
Definition query_endpoint (active : option Ident) : Endpoint :=
  match active with
  | Some cid => if truthy_id cid then EQueryIn cid else EQuery
  | None => EQuery
  end.

(** [handleAsk] up to its [await]; [now] is [Date.now()] and [iso] is
    [new Date().toISOString()]. *)
Definition handleAsk (now : Z) (iso : str) (w : World) : World :=
  let a := app w in
  if negb (Js.truthy (question a)) || negb (truthy (documentId a)) then w
  else
    let newEntry :=
      {| ent_id := now; ent_question := question a; ent_answer := processing |} in
    let w1 := setAsking true w in
    let w2 :=
      if truthy (activeConversationId a)
      then setConversationMessages
             (fun prev => prev ++ [ {| msg_question := question a;
                                       msg_answer := processing;
                                       msg_task_type := unknown;
                                       msg_timestamp := iso |} ]) w1
      else setHistory (fun prev => prev ++ [newEntry]) w1 in
    let w3 := setQuestion [] w2 in
    issue (PAsk (activeConversationId a) now)
      {| method := POST;
         endpoint := query_endpoint (activeConversationId a);
         body := QueryBody (question a) (documentId a) general |}
      w3.

(** [handleAsk] after its [await]: [active] and [entryId] are the closure's
    [activeConversationId] and [newEntry.id]. *)
Definition handleAsk_then (active : option Ident) (entryId : Z)
  (r : Reply) (iso : str) (w : World) : World :=
  setAsking false
    match r with
    | Ok d =>
        if truthy active
        then setConversationMessages
               (map_last (fun msg =>
                  {| msg_question := msg_question msg;
                     msg_answer := data_answer d;
                     msg_task_type := data_task_type d;
                     msg_timestamp := iso |})) w
        else setHistory (answer_entry entryId (data_answer d)) w
    | Failed err =>
        let errorMessage := error_prefix ++ detail_or_message err in
        if truthy active
        then setConversationMessages
               (map_last (fun msg =>
                  {| msg_question := msg_question msg;
                     msg_answer := errorMessage;
                     msg_task_type := msg_task_type msg;
                     msg_timestamp := msg_timestamp msg |})) w
        else setHistory (answer_entry entryId errorMessage) w
    end.

Definition handleAnalyze (now : Z) (iso : str) (w : World) : World :=
  let a := app w in
  if negb (truthy (documentId a)) then w
  else
    let analysisEntry :=
      {| ent_id := now; ent_question := comprehensive_analysis;
         ent_answer := analyzing_document |} in
    let w1 := setAnalyzing true w in
    let w2 :=
      if truthy (activeConversationId a)
      then setConversationMessages
             (fun prev => prev ++ [ {| msg_question := comprehensive_analysis;
                                       msg_answer := analyzing_document;
                                       msg_task_type := analysis;
                                       msg_timestamp := iso |} ]) w1
      else setHistory (fun prev => prev ++ [analysisEntry]) w1 in
    issue (PAnalyze (activeConversationId a) now)
      {| method := POST;
         endpoint := query_endpoint (activeConversationId a);
         body := QueryBody analysis_question (documentId a) general |}
      w2.

Definition handleAnalyze_then (active : option Ident) (entryId : Z)
  (r : Reply) (w : World) : World :=
  setAnalyzing false
    match r with
    | Ok d =>
        if truthy active
        then setConversationMessages
               (map_last (fun msg =>
                  {| msg_question := msg_question msg;
                     msg_answer := data_answer d;
                     msg_task_type := data_task_type d;
                     msg_timestamp := msg_timestamp msg |})) w
        else setHistory (answer_entry entryId (data_answer d)) w
    | Failed err =>
        let errorMessage := analysis_failed_prefix ++ detail_or_message err in
        if truthy active
        then setConversationMessages
               (map_last (fun msg =>
                  {| msg_question := msg_question msg;
                     msg_answer := errorMessage;
                     msg_task_type := msg_task_type msg;
                     msg_timestamp := msg_timestamp msg |})) w
        else setHistory (answer_entry entryId errorMessage) w
    end.

(** ** ConversationSidebar *)

Definition loadConversations : World -> World :=
  issue PLoadConversations
    {| method := GET; endpoint := EConversations; body := NoBody |}.

Definition loadConversations_then (r : Reply) (w : World) : World :=
  setLoading false
    match r with
    | Ok d =>
        if decide (data_status d = success)
        then setConversations (fun _ => data_conversations d) w
        else w
    | Failed _ => w
    end.

Definition createNewConversation (w : World) : World :=
  if negb (Js.truthy (Js.trim (newTitle (side w)))) then w
  else
    issue PCreate
      {| method := POST; endpoint := EConversations;
         body := CreateBody (newTitle (side w)) general |}
      w.

Definition createNewConversation_then (r : Reply) (w : World) : World :=
  match r with
  | Ok d =>
      if decide (data_status d = success)
      then
        let newConversation := data_conversation d in
        let w1 := setConversations (fun prev => newConversation :: prev) w in
        let w2 := setShowModal false w1 in
        let w3 := setNewTitle [] w2 in
        let w4 := handleNewConversation (conv_id newConversation) w3 in
        handleConversationSelect (Some (conv_id newConversation)) w4
      else w
  | Failed _ => w
  end.

(** [confirmed] is the answer of [window.confirm]. *)
Definition deleteConversation (conversationId : Ident) (confirmed : bool)
  (w : World) : World :=
  if negb confirmed then w
  else
    issue (PDelete conversationId (activeConversationId (app w)))
      {| method := DELETE; endpoint := EConversation conversationId;
         body := NoBody |}
      w.

(** [active] is the [activeConversationId] prop the closure captured. *)
Definition deleteConversation_then (conversationId : Ident)
  (active : option Ident) (r : Reply) (w : World) : World :=
  match r with
  | Ok _ =>
      let w1 :=
        setConversations
          (filter (fun c => conv_id c <> conversationId)) w in
      if decide (active = Some conversationId)
      then handleConversationSelect None w1
      else w1
  | Failed _ => w
  end.

Definition updateConversationTitle (conversationId : Ident) (title : str)
  : World -> World :=
  issue (PRename conversationId title)
    {| method := PUT; endpoint := EConversation conversationId;
       body := TitleBody title |}.

(** [{ ...c, title }] *)
Definition retitle (title : str) (c : Conversation) : Conversation :=
  {| conv_id := conv_id c; conv_title := title;
     conv_message_count := conv_message_count c;
     conv_updated_at := conv_updated_at c |}.

Definition updateConversationTitle_then (conversationId : Ident) (title : str)
  (r : Reply) (w : World) : World :=
  match r with
  | Ok _ =>
      setEditingId None
        (setConversations
           (fmap (fun c => if decide (conv_id c = conversationId)
                           then retitle title c else c)) w)
  | Failed _ => w
  end.

Definition handleTitleEdit (conversationId : Ident) (currentTitle : str)
  (w : World) : World :=
  setNewTitle currentTitle (setEditingId (Some conversationId) w).

Definition handleTitleSave (conversationId : Ident) (w : World) : World :=
  let t := newTitle (side w) in
  setNewTitle []
    (if Js.truthy (Js.trim t)
     then updateConversationTitle conversationId (Js.trim t) w
     else setEditingId None w).

(** ** Events and the transition function *)

Inductive Event :=
| ChangeFile (name : str)                    (* handleFileChange *)
| ClickUpload                                (* handleUpload *)
| ChangeQuestion (q : str)                   (* composer onChange *)
| ClickAsk (now : Z) (iso : str)             (* handleAsk *)
| ClickAnalyze (now : Z) (iso : str)         (* handleAnalyze *)
| ClickConversation (cid : Ident)            (* sidebar item onClick *)
| OpenModal
| CloseModal
| ChangeNewTitle (t : str)                   (* title inputs' onChange *)
| ClickCreate                                (* createNewConversation *)
| ClickDelete (cid : Ident) (confirmed : bool)
| ClickEdit (cid : Ident) (currentTitle : str)
| SaveTitle (cid : Ident)                    (* blur or Enter *)
| CancelEdit                                 (* Escape *)
| Arrive (k : nat) (r : Reply) (iso : str).  (* request [k] settles *)

(** The code after the [await] of the handler that issued the request. *)
Definition resume (p : Pending) (r : Reply) (iso : str) : World -> World :=
  match p with
  | PLoadConversations => loadConversations_then r
  | PCreate => createNewConversation_then r
  | PDelete cid active => deleteConversation_then cid active r
  | PRename cid title => updateConversationTitle_then cid title r
  | PLoadMessages => loadConversationMessages_then r
  | PUpload => handleUpload_then r
  | PAsk active entryId => handleAsk_then active entryId r iso
  | PAnalyze active entryId => handleAnalyze_then active entryId r
  end.

Definition handle (e : Event) (w : World) : World :=
  match e with
  | ChangeFile name => setFile (Some name) w
  | ClickUpload => handleUpload w
  | ChangeQuestion q => setQuestion q w
  | ClickAsk now iso => handleAsk now iso w
  | ClickAnalyze now iso => handleAnalyze now iso w
  | ClickConversation cid => handleConversationSelect (Some cid) w
  | OpenModal => setShowModal true w
  | CloseModal => setShowModal false w
  | ChangeNewTitle t => setNewTitle t w
  | ClickCreate => createNewConversation w
  | ClickDelete cid confirmed => deleteConversation cid confirmed w
  | ClickEdit cid currentTitle => handleTitleEdit cid currentTitle w
  | SaveTitle cid => handleTitleSave cid w
  | CancelEdit => setNewTitle [] (setEditingId None w)
  | Arrive k r iso =>
      match net w !! k with
      | Some p => resume p r iso (settle k w)
      | None => w
      end
  end.

(** One event: its handler, then the effect if the dependency changed. *)
Definition step (e : Event) (w : World) : World :=
  useEffect (activeConversationId (app w)) (handle e w).

Fixpoint run (es : list Event) (w : World) : World :=
  match es with
  | [] => w
  | e :: es => run es (step e w)
  end.

(** The [useState] initial values. *)
Definition init : World :=
  {| app := {| file := None; question := []; history := [];
               documentId := Some (IdStr []); uploading := false;
               asking := false; analyzing := false;
               activeConversationId := None; conversationMessages := [] |};
     side := {| conversations := []; loading := true; showModal := false;
                editingId := None; newTitle := [] |};
     net := ∅; next := 0%nat; sent := [] |}.

(** First render: both mount effects run. *)
Definition mount : World :=
  loadConversations (setConversationMessages (fun _ => []) init).

(** What the [disabled] attributes and conditional rendering of the two
    components let the user do. *)
Definition enabled (e : Event) (w : World) : bool :=
  match e with
  | ChangeFile _ => negb (uploading (app w))
  | ClickUpload =>
      negb (uploading (app w) || negb (bool_decide (is_Some (file (app w)))))
  | ChangeQuestion _ | ClickAsk _ _ =>
      negb (negb (truthy (documentId (app w))) || asking (app w))
  | ClickAnalyze _ _ =>
      truthy (documentId (app w)) && negb (analyzing (app w))
  | ClickConversation cid | ClickDelete cid _ | ClickEdit cid _ =>
      negb (loading (side w))
      && bool_decide (cid ∈ conv_id <$> conversations (side w))
  | SaveTitle cid =>
      negb (loading (side w))
      && bool_decide (editingId (side w) = Some cid)
      && bool_decide (cid ∈ conv_id <$> conversations (side w))
  | CancelEdit =>
      negb (loading (side w))
      && bool_decide (editingId (side w) ∈
                        (Some ∘ conv_id) <$> conversations (side w))
  | OpenModal => true
  | ClickCreate | CloseModal => showModal (side w)
  | ChangeNewTitle _ =>
      showModal (side w)
      || (negb (loading (side w))
          && bool_decide (editingId (side w) ∈
                            (Some ∘ conv_id) <$> conversations (side w)))
  | Arrive k _ _ => bool_decide (is_Some (net w !! k))
  end.

(** The store of the specification: conversation list, active selection
    and the active conversation's messages. *)
Definition store (w : World)
  : list Conversation * option Ident * list Message :=
  (conversations (side w), activeConversationId (app w),
   conversationMessages (app w)).

(** The thread the user sees: [conversationMessages] when a conversation
    is active, the unfiled [history] otherwise, as question/answer pairs. *)
Definition thread (w : World) : list (str * str) :=
  if truthy (activeConversationId (app w))
  then (fun m => (msg_question m, msg_answer m)) <$> conversationMessages (app w)
  else (fun h => (ent_question h, ent_answer h)) <$> history (app w).

(** ** The single-answer App variant

    One answer cell, no thread; the older [App] component.  [outbox] logs
    the requests sent. *)

Module PolicyApp.

Record State := {
  question : str;
  answer : str;
  originalSections : list str;
  taskType : str;
  asking : bool;
  analyzing : bool;
  policyId : option Ident;
  outbox : list Request
}.

(** ['Analyzing your policy document...'] *)
Definition analyzing_policy : str := lit "Analyzing your policy document...".
(** ['Processing your question...'] *)
Definition processing_question : str := lit "Processing your question...".

Definition handleAsk (s : State) : State :=
  if negb (Js.truthy (question s)) || negb (truthy (policyId s)) then s
  else
    {| question := question s; answer := processing_question;
       originalSections := originalSections s; taskType := taskType s;
       asking := true; analyzing := analyzing s; policyId := policyId s;
       outbox := outbox s ++
         [ {| method := POST; endpoint := EQuery;
              body := PolicyQueryBody (question s) (policyId s) |} ] |}.

Definition handleAnalyze (s : State) : State :=
  if negb (truthy (policyId s)) then s
  else
    {| question := question s; answer := analyzing_policy;
       originalSections := originalSections s; taskType := taskType s;
       asking := asking s; analyzing := true; policyId := policyId s;
       outbox := outbox s ++
         [ {| method := POST; endpoint := EAnalyze;
              body := PolicyBody (policyId s) |} ] |}.

End PolicyApp.

(** ** The history App variant (frontend/src/App.js)

    Questions and analyses are entries of one unfiled [history], resolved
    by entry id; there are no conversations. *)

Module HistoryApp.

Record State := {
  question : str;
  history : list Entry;
  policyId : option Ident;
  asking : bool;
  analyzing : bool;
  outbox : list Request
}.

(** ["AI Analysis"] *)
Definition ai_analysis : str := lit "AI Analysis".
(** ["⏳ Analyzing..."] *)
Definition analyzing_ : str := 0x23F3%N :: lit " Analyzing...".
(** ["❌ Analysis failed: "] *)
Definition analysis_failed : str := 0x274C%N :: lit " Analysis failed: ".

Definition handleAsk (now : Z) (s : State) : State :=
  if negb (Js.truthy (question s)) || negb (truthy (policyId s)) then s
  else
    {| question := [];
       history := history s ++
         [ {| ent_id := now; ent_question := question s;
              ent_answer := processing |} ];
       policyId := policyId s; asking := true; analyzing := analyzing s;
       outbox := outbox s ++
         [ {| method := POST; endpoint := EQuery;
              body := PolicyQueryBody (question s) (policyId s) |} ] |}.

Definition handleAnalyze (now : Z) (s : State) : State :=
  if negb (truthy (policyId s)) then s
  else
    {| question := question s;
       history := history s ++
         [ {| ent_id := now; ent_question := ai_analysis;
              ent_answer := analyzing_ |} ];
       policyId := policyId s; asking := asking s; analyzing := true;
       outbox := outbox s ++
         [ {| method := POST; endpoint := EAnalyze;
              body := PolicyBody (policyId s) |} ] |}.

(** [handleAnalyze] after its [await]; [entryId] is [newEntry.id]. *)
Definition handleAnalyze_then (entryId : Z) (r : Reply) (s : State) : State :=
  {| question := question s;
     history :=
       answer_entry entryId
         match r with
         | Ok d => data_answer d
         | Failed err => analysis_failed ++ detail_or_message err
         end
         (history s);
     policyId := policyId s; asking := asking s; analyzing := false;
     outbox := outbox s |}.

End HistoryApp.

(** ** The operations of the specification, as sequences of the above *)

(** [setActive(id | null)]: [onConversationSelect] and the effect it
    triggers. *)
Definition setActive (target : option Ident) (w : World) : World :=
  useEffect (activeConversationId (app w)) (handleConversationSelect target w).

(** [setActive] run to completion against a backend: when the switch sent
    a request, its reply is delivered. *)
Definition setActive_with (backend : Ident -> Reply) (target : option Ident)
  (w : World) : World :=
  let w1 := setActive target w in
  match target with
  | Some cid =>
      if decide (next w1 = next w) then w1
      else step (Arrive (next w) (backend cid) []) w1
  | None => w1
  end.

(** [create(title)]: the title is typed into the modal, Create is pressed
    and the backend answers [r]. *)
Definition create (title : str) (r : Reply) (w : World) : World :=
  step (Arrive (next w) r [])
    (step ClickCreate (step (ChangeNewTitle title) w)).

Fixpoint creates (calls : list (str * Reply)) (w : World) : World :=
  match calls with
  | [] => w
  | (title, r) :: calls => creates calls (create title r w)
  end.

(** A 2xx reply whose body says [status: 'success']. *)
Definition acknowledged (r : Reply) : bool :=
  match r with
  | Ok d => bool_decide (data_status d = success)
  | Failed _ => false
  end.

(** ** A session used in the examples

    The scenario of the specification: a document is uploaded, the
    conversation "Lab Results" is opened and the question
    "What are my results?" is typed. *)

Module Sample.

Definition c1 : Ident := IdStr (lit "c1").
Definition doc : Ident := IdStr (lit "doc-1").

Definition lab_results : Conversation :=
  {| conv_id := c1; conv_title := lit "Lab Results";
     conv_message_count := 0; conv_updated_at := lit "2024-01-01T09:00:00.000Z" |}.

Definition q : str := lit "What are my results?".

Definition t1 : str := lit "2024-01-01T10:00:00.000Z".
Definition t2 : str := lit "2024-01-01T10:00:01.000Z".
Definition t3 : str := lit "2024-01-01T10:00:02.000Z".
Definition t4 : str := lit "2024-01-01T10:00:03.000Z".

(** A body with the given answer; every handler reads the fields of its
    own endpoint. *)
Definition body (status answer task_type : str) : Data :=
  {| data_status := status;
     data_conversations := [lab_results];
     data_conversation := lab_results;
     data_messages := [];
     data_answer := answer;
     data_task_type := task_type;
     data_document_id := Some doc |}.

Definition normal : Data := body success (lit "Normal") (lit "translation").
Definition summary : Data := body success (lit "Summary") analysis.

Definition network_error : Failure :=
  {| detail := None; message := lit "Network Error" |}.

(** The list has loaded and a document is uploaded. *)
Definition uploaded : list Event :=
  [ Arrive 0 (Ok normal) [];
    ChangeFile (lit "results.pdf"); ClickUpload; Arrive 1 (Ok normal) [] ].

(** Unfiled mode, question typed. *)
Definition unfiled : list Event := uploaded ++ [ ChangeQuestion q ].

(** "Lab Results" is open and its (empty) thread has loaded; question
    typed. *)
Definition opened : list Event :=
  uploaded ++ [ ClickConversation c1; Arrive 2 (Ok normal) [];
                ChangeQuestion q ].

End Sample.

(** Every event of a run is one the interface offers when it happens. *)
Fixpoint offered (es : list Event) (w : World) : bool :=
  match es with
  | [] => true
  | e :: es => enabled e w && offered es (step e w)
  end.

(** ** More of ConversationSidebar *)

(** [handleKeyPress(e, conversationId)] of the title input; [key] is
    [e.key]. *)
Definition handleKeyPress (key : str) (conversationId : Ident) (w : World)
  : World :=
  if decide (key = lit "Enter") then handleTitleSave conversationId w
  else if decide (key = lit "Escape")
       then setNewTitle [] (setEditingId None w)
       else w.

(** [String(n)] for an integer: decimal digits, most significant first. *)
Fixpoint digits (fuel : nat) (n : N) (acc : str) : str :=
  match fuel with
  | O => acc
  | S fuel =>
      let acc := (48 + n mod 10)%N :: acc in
      if (n <? 10)%N then acc else digits fuel (n / 10)%N acc
  end.

Definition decimal (z : Z) : str :=
  let n := Z.to_N (Z.abs z) in
  let ds := digits (S (N.to_nat (N.log2 n))) n [] in
  if z <? 0 then 45%N :: ds else ds.

(** [1000 * 60 * 60 * 24] *)
Definition day_ms : Z := 1000 * 60 * 60 * 24.

(** [Math.ceil(diffTime / day_ms)] for a non-negative integer [diffTime]. *)
Definition ceil_days (diffTime : Z) : Z := (diffTime + (day_ms - 1)) / day_ms.

(** [formatDate(dateString)].  [date] is the time value of
    [new Date(dateString)] and [now] that of [new Date()], in
    milliseconds, for a date string that parses; [toLocaleDateString]
    stands for the locale's rendering of [date].  Time values are integers,
    and the quotient by the day length is far enough from the next integer
    for [Math.ceil] to be exact, so integer arithmetic computes what the
    source computes. *)
Definition formatDate (toLocaleDateString : Z -> str) (now date : Z) : str :=
  let diffTime := Z.abs (now - date) in
  let diffDays := ceil_days diffTime in
  if diffDays =? 1 then lit "Today"
  else if diffDays =? 2 then lit "Yesterday"
  else if diffDays <=? 7 then decimal (diffDays - 1) ++ lit " days ago"
  else toLocaleDateString date.

(** ** More of the history App variant *)

(** The label of an entry in the Q&A history sidebar:
    [h.question.length > 20 ? h.question.slice(0, 20) + "..." : h.question] *)
Definition history_label (question : str) : str :=
  if (20 <? length question)%nat then take 20 question ++ lit "..."
  else question.

(** ** SimpleApp (frontend/src/SimpleApp.js)

    One query box, the last response and a chat history of user and
    assistant messages. *)

Module SimpleApp.

Inductive Role := user | assistant.

(** [{ type, content }] *)
Record ChatMessage := {
  type : Role;
  content : str
}.

#[global] Instance Role_eq_dec : EqDecision Role.
Proof. solve_decision. Defined.
#[global] Instance ChatMessage_eq_dec : EqDecision ChatMessage.
Proof. solve_decision. Defined.

(** What the component posts: the file to [/upload], [{ query }] to [/ask]. *)
Inductive Request :=
| UploadRequest (file : str)
| AskRequest (query : str).

(** A 2xx reply carries [data.message] (upload) or [data.response] (ask). *)
Inductive Reply :=
| Ok (text : str)
| Failed.

(** The continuation of a request in flight; [handleAsk] captured [query]. *)
Inductive Pending :=
| PUpload
| PAsk (query : str).

Record State := {
  file : option str;
  query : str;
  response : str;
  isLoading : bool;
  uploadStatus : str;
  chatHistory : list ChatMessage;
  net : gmap nat Pending;
  next : nat;
  sent : list Request
}.

Definition issue (p : Pending) (r : Request) (s : State) : State :=
  {| file := file s; query := query s; response := response s;
     isLoading := isLoading s; uploadStatus := uploadStatus s;
     chatHistory := chatHistory s;
     net := <[next s := p]> (net s); next := S (next s);
     sent := sent s ++ [r] |}.

Definition setIsLoading (v : bool) (s : State) : State :=
  {| file := file s; query := query s; response := response s;
     isLoading := v; uploadStatus := uploadStatus s;
     chatHistory := chatHistory s;
     net := net s; next := next s; sent := sent s |}.

(** [handleFileUpload] up to its [await]; without a file it alerts and
    returns. *)
Definition handleFileUpload (s : State) : State :=
  match file s with
  | None => s
  | Some f => issue PUpload (UploadRequest f) (setIsLoading true s)
  end.

Definition handleFileUpload_then (r : Reply) (s : State) : State :=
  {| file := file s; query := query s; response := response s;
     isLoading := false;
     uploadStatus :=
       match r with
       | Ok message => message
       | Failed => lit "Error uploading file"
       end;
     chatHistory := chatHistory s;
     net := net s; next := next s; sent := sent s |}.

(** [handleAsk] up to its [await]; with an empty query it alerts and
    returns. *)
Definition handleAsk (s : State) : State :=
  if negb (Js.truthy (query s)) then s
  else issue (PAsk (query s)) (AskRequest (query s)) (setIsLoading true s).

(** [handleAsk] after its [await]; [q] is the closure's [query]. *)
Definition handleAsk_then (q : str) (r : Reply) (s : State) : State :=
  match r with
  | Ok newResponse =>
      {| file := file s; query := []; response := newResponse;
         isLoading := false; uploadStatus := uploadStatus s;
         chatHistory :=
           chatHistory s ++
           [ {| type := user; content := q |};
             {| type := assistant; content := newResponse |} ];
         net := net s; next := next s; sent := sent s |}
  | Failed =>
      {| file := file s; query := query s;
         response := lit "Error processing query";
         isLoading := false; uploadStatus := uploadStatus s;
         chatHistory := chatHistory s;
         net := net s; next := next s; sent := sent s |}
  end.

Inductive Event :=
| ChangeFile (f : str)
| ClickUpload
| ChangeQuery (q : str)
| Ask                          (* the button, or Enter in the query box *)
| Arrive (k : nat) (r : Reply).

Definition step (e : Event) (s : State) : State :=
  match e with
  | ChangeFile f =>
      {| file := Some f; query := query s; response := response s;
         isLoading := isLoading s; uploadStatus := uploadStatus s;
         chatHistory := chatHistory s;
         net := net s; next := next s; sent := sent s |}
  | ClickUpload => handleFileUpload s
  | ChangeQuery q =>
      {| file := file s; query := q; response := response s;
         isLoading := isLoading s; uploadStatus := uploadStatus s;
         chatHistory := chatHistory s;
         net := net s; next := next s; sent := sent s |}
  | Ask => handleAsk s
  | Arrive k r =>
      match net s !! k with
      | Some p =>
          let s' :=
            {| file := file s; query := query s; response := response s;
               isLoading := isLoading s; uploadStatus := uploadStatus s;
               chatHistory := chatHistory s;
               net := delete k (net s); next := next s; sent := sent s |} in
          match p with
          | PUpload => handleFileUpload_then r s'
          | PAsk q => handleAsk_then q r s'
          end
      | None => s
      end
  end.

Fixpoint run (es : list Event) (s : State) : State :=
  match es with
  | [] => s
  | e :: es => run es (step e s)
  end.

(** The [useState] initial values. *)
Definition init : State :=
  {| file := None; query := []; response := []; isLoading := false;
     uploadStatus := []; chatHistory := [];
     net := ∅; next := 0%nat; sent := [] |}.

(** The chat history made of the given question/answer pairs. *)
Definition transcript (pairs : list (str * str)) : list ChatMessage :=
  pairs ≫= fun qa =>
    [ {| type := user; content := fst qa |};
      {| type := assistant; content := snd qa |} ].

End SimpleApp.

(** ** Login (frontend/src)

    The form, the browser's [localStorage] and the calls made to the
    parent's [onLogin]. *)

Module Login.

(** The [name] attributes of the two inputs. *)
Inductive Field := username_or_email | password.

(** [formData] *)
Record FormData := {
  fd_username_or_email : str;
  fd_password : str
}.

(** The body of the reply as [response.json()] gives it: [token], [user]
    (as [JSON.stringify] renders it) and [detail]. *)
Record Data := {
  token : str;
  user : str;
  detail : option str
}.

(** [Http ok data]: the fetch resolved and the body parsed, [ok] being
    [response.ok]; [Unreachable]: the fetch or the parsing threw. *)
Inductive Reply :=
| Http (ok : bool) (data : Data)
| Unreachable.

Record State := {
  formData : FormData;
  showPassword : bool;
  loading : bool;
  error : str;
  localStorage : gmap str str;
  onLogin : list (str * str);       (* calls of [onLogin(user, token)] *)
  posted : list FormData;           (* bodies posted to [/auth/login] *)
  waiting : nat                     (* submissions awaiting their reply *)
}.

(** [{ ...formData, [e.target.name]: e.target.value }] *)
Definition with_field (name : Field) (value : str) (f : FormData) : FormData :=
  match name with
  | username_or_email =>
      {| fd_username_or_email := value; fd_password := fd_password f |}
  | password =>
      {| fd_username_or_email := fd_username_or_email f; fd_password := value |}
  end.

Definition handleChange (name : Field) (value : str) (s : State) : State :=
  {| formData := with_field name value (formData s);
     showPassword := showPassword s; loading := loading s;
     error := if Js.truthy (error s) then [] else error s;
     localStorage := localStorage s; onLogin := onLogin s;
     posted := posted s; waiting := waiting s |}.

(** [handleSubmit] up to its [await]. *)
Definition handleSubmit (s : State) : State :=
  {| formData := formData s; showPassword := showPassword s;
     loading := true; error := [];
     localStorage := localStorage s; onLogin := onLogin s;
     posted := posted s ++ [formData s]; waiting := S (waiting s) |}.

(** [data.detail || 'Login failed'] *)
Definition detail_or_default (d : Data) : str :=
  match detail d with
  | Some t => if Js.truthy t then t else lit "Login failed"
  | None => lit "Login failed"
  end.

(** [handleSubmit] after its [await]s. *)
Definition handleSubmit_then (r : Reply) (s : State) : State :=
  match r with
  | Http true data =>
      {| formData := formData s; showPassword := showPassword s;
         loading := false; error := error s;
         localStorage :=
           <[lit "user" := user data]>
             (<[lit "token" := token data]> (localStorage s));
         onLogin := onLogin s ++ [(user data, token data)];
         posted := posted s; waiting := pred (waiting s) |}
  | Http false data =>
      {| formData := formData s; showPassword := showPassword s;
         loading := false; error := detail_or_default data;
         localStorage := localStorage s; onLogin := onLogin s;
         posted := posted s; waiting := pred (waiting s) |}
  | Unreachable =>
      {| formData := formData s; showPassword := showPassword s;
         loading := false; error := lit "Network error. Please try again.";
         localStorage := localStorage s; onLogin := onLogin s;
         posted := posted s; waiting := pred (waiting s) |}
  end.

Inductive Event :=
| Change (name : Field) (value : str)
| TogglePassword
| Submit
| Arrive (r : Reply).

Definition step (e : Event) (s : State) : State :=
  match e with
  | Change name value => handleChange name value s
  | TogglePassword =>
      {| formData := formData s; showPassword := negb (showPassword s);
         loading := loading s; error := error s;
         localStorage := localStorage s; onLogin := onLogin s;
         posted := posted s; waiting := waiting s |}
  | Submit => handleSubmit s
  | Arrive r =>
      match waiting s with
      | O => s
      | S _ => handleSubmit_then r s
      end
  end.

Fixpoint run (es : list Event) (s : State) : State :=
  match es with
  | [] => s
  | e :: es => run es (step e s)
  end.

(** The [useState] initial values, over the storage the browser holds. *)
Definition init (storage : gmap str str) : State :=
  {| formData := {| fd_username_or_email := []; fd_password := [] |};
     showPassword := false; loading := false; error := [];
     localStorage := storage; onLogin := [];
     posted := []; waiting := 0%nat |}.

(** A reply that signs the user in. *)
Definition accepted (e : Event) : bool :=
  match e with
  | Arrive (Http true _) => true
  | _ => false
  end.

End Login.

(** ** Predicates on runs of FinalApp *)

(** A reply whose body carries a usable document id. *)
Definition delivers_document (e : Event) : bool :=
  match e with
  | Arrive _ (Ok d) _ => truthy (data_document_id d)
  | _ => false
  end.

(** A request to one of the question endpoints. *)
Definition is_query (r : Request) : bool :=
  match endpoint r with
  | EQuery | EQueryIn _ => true
  | _ => false
  end.

(** What every question request looks like: a POST whose body holds a
    non-empty question, a usable document id and the type ["general"], and
    whose conversation, if it names one, has a truthy id; and a message
    load names a conversation with a truthy id. *)
Definition well_formed (r : Request) : bool :=
  match endpoint r with
  | EQuery =>
      bool_decide (method r = POST)
      && match body r with
         | QueryBody q d t =>
             Js.truthy q && truthy d && bool_decide (t = general)
         | _ => false
         end
  | EQueryIn cid =>
      bool_decide (method r = POST) && truthy_id cid
      && match body r with
         | QueryBody q d t =>
             Js.truthy q && truthy d && bool_decide (t = general)
         | _ => false
         end
  | EConversation cid =>
      match method r with
      | GET => truthy_id cid
      | _ => true
      end
  | _ => true
  end.

(** What every run of [SimpleApp] keeps true: the chat history is a
    transcript of queries that were posted, and so is every query still
    awaiting its answer. *)
Definition SimpleApp_invariant (s : SimpleApp.State) : Prop :=
  (exists pairs,
     SimpleApp.chatHistory s = SimpleApp.transcript pairs /\
     Forall (fun qa => fst qa <> [] /\
                       SimpleApp.AskRequest (fst qa) ∈ SimpleApp.sent s)
       pairs) /\
  (forall k q, SimpleApp.net s !! k = Some (SimpleApp.PAsk q) ->
               q <> [] /\ SimpleApp.AskRequest q ∈ SimpleApp.sent s).


(** [formData[name]] *)
Definition form_field (name : Login.Field) (f : Login.FormData) : str :=
  match name with
  | Login.username_or_email => Login.fd_username_or_email f
  | Login.password => Login.fd_password f
  end.

(** ** Two conversations with stored messages, used in the examples *)

Module Stored.

Definition c2 : Ident := IdStr (lit "c2").

Definition scan : Conversation :=
  {| conv_id := c2; conv_title := lit "Scan";
     conv_message_count := 2; conv_updated_at := lit "2024-01-01T08:00:00.000Z" |}.

Definition results : Message :=
  {| msg_question := Sample.q; msg_answer := lit "Normal";
     msg_task_type := lit "translation";
     msg_timestamp := lit "2024-01-01T09:00:00.000Z" |}.

Definition finding : Message :=
  {| msg_question := lit "What does the scan show?";
     msg_answer := lit "No finding";
     msg_task_type := lit "translation";
     msg_timestamp := lit "2024-01-01T08:00:00.000Z" |}.

Definition follow_up : Message :=
  {| msg_question := lit "Is a follow-up needed?";
     msg_answer := lit "No";
     msg_task_type := lit "compliance";
     msg_timestamp := lit "2024-01-01T08:01:00.000Z" |}.

(** A body listing both conversations and carrying the given messages. *)
Definition body (messages : list Message) : Data :=
  {| data_status := success;
     data_conversations := [Sample.lab_results; scan];
     data_conversation := scan;
     data_messages := messages;
     data_answer := [];
     data_task_type := [];
     data_document_id := Some Sample.doc |}.

(** What the backend holds: one message for "Lab Results", two for
    "Scan", none for any other id. *)
Definition backend (cid : Ident) : Reply :=
  if decide (cid = Sample.c1) then Ok (body [results])
  else if decide (cid = c2) then Ok (body [finding; follow_up])
  else Ok (body []).

(** The list has loaded, a document is uploaded, "Lab Results" is open
    with its stored message and a question has just been submitted. *)
Definition asked : list Event :=
  [ Arrive 0 (Ok (body [])) [];
    ChangeFile (lit "results.pdf"); ClickUpload; Arrive 1 (Ok (body [])) [];
    ClickConversation Sample.c1; Arrive 2 (backend Sample.c1) [];
    ChangeQuestion Sample.q; ClickAsk 1000 Sample.t1 ].

(** "Lab Results" is selected and, before its messages arrive, "Scan". *)
Definition switched : list Event :=
  [ Arrive 0 (Ok (body [])) [];
    ClickConversation Sample.c1; ClickConversation c2 ].

End Stored.

(** * Properties *)

(** ** Lists *)

Lemma map_last_length {A} (f : A -> A) (l : list A) :
  length (map_last f l) = length l.
Proof. unfold map_last. apply length_imap. Qed.

Lemma map_last_lookup {A} (f : A -> A) (l : list A) (i : nat) :
  map_last f l !! i =
  (fun x => if decide (S i = length l) then f x else x) <$> l !! i.
Proof.
  unfold map_last. rewrite list_lookup_imap.
  destruct (l !! i) as [x|] eqn:E; simpl; [|done].
  do 2 case_decide; try done; lia.
Qed.

Lemma map_last_snoc {A} (f : A -> A) (l : list A) (x : A) :
  map_last f (l ++ [x]) = l ++ [f x].
Proof.
  apply list_eq. intros i. rewrite map_last_lookup, length_app. simpl.
  destruct (decide (i < length l)%nat) as [Hlt | Hge].
  - rewrite !lookup_app_l by done.
    destruct (l !! i); simpl; [|done]. case_decide; [lia | done].
  - rewrite !lookup_app_r by lia.
    destruct (i - length l)%nat eqn:E; simpl; [|done].
    case_decide; [done | lia].
Qed.

Lemma map_last_questions (f : Message -> Message) (l : list Message) :
  (forall m, msg_question (f m) = msg_question m) ->
  msg_question <$> map_last f l = msg_question <$> l.
Proof.
  intros Hf. apply list_eq. intros i.
  rewrite !list_lookup_fmap, map_last_lookup.
  destruct (l !! i); simpl; [|done]. case_decide; by rewrite ?Hf.
Qed.

Lemma answer_entry_snoc (entryId : Z) (answer : str) (l : list Entry)
  (question old : str) :
  answer_entry entryId answer
    (l ++ [ {| ent_id := entryId; ent_question := question;
               ent_answer := old |} ])
  = answer_entry entryId answer l
    ++ [ {| ent_id := entryId; ent_question := question;
            ent_answer := answer |} ].
Proof.
  unfold answer_entry. rewrite fmap_app. simpl. by rewrite decide_True.
Qed.

Lemma answer_entry_questions (entryId : Z) (answer : str) (l : list Entry) :
  ent_question <$> answer_entry entryId answer l = ent_question <$> l.
Proof.
  unfold answer_entry. rewrite <- list_fmap_compose.
  apply list_fmap_ext. intros i h _. simpl. by case_decide.
Qed.

(** ** Runs, continuations and the effect *)

Lemma run_snoc (es : list Event) (e : Event) (w : World) :
  run (es ++ [e]) w = step e (run es w).
Proof. revert w. induction es as [|e' es IH]; intros w; simpl; [done | apply IH]. Qed.

Lemma run_app (es1 es2 : list Event) (w : World) :
  run (es1 ++ es2) w = run es2 (run es1 w).
Proof. revert w. induction es1 as [|e' es IH]; intros w; simpl; [done | apply IH]. Qed.

(** No continuation sends a request of its own. *)
Lemma resume_net p r iso w :
  net (resume p r iso w) = net w /\ next (resume p r iso w) = next w /\
  sent (resume p r iso w) = sent w.
Proof.
  destruct p, r; simpl;
    unfold loadConversations_then, createNewConversation_then,
      deleteConversation_then, updateConversationTitle_then,
      loadConversationMessages_then, handleUpload_then, handleAsk_then,
      handleAnalyze_then;
    repeat case_decide; repeat case_match; done.
Qed.

Lemma useEffect_frame b w :
  side (useEffect b w) = side w /\
  activeConversationId (app (useEffect b w)) = activeConversationId (app w) /\
  history (app (useEffect b w)) = history (app w) /\
  question (app (useEffect b w)) = question (app w) /\
  asking (app (useEffect b w)) = asking (app w).
Proof.
  unfold useEffect, loadConversationMessages.
  case_decide; [done|].
  destruct (activeConversationId (app w)) as [cid|] eqn:E;
    [destruct (truthy_id cid)|]; simpl; rewrite ?E; repeat split; reflexivity.
Qed.

Lemma useEffect_same w b :
  activeConversationId (app w) = b -> useEffect b w = w.
Proof. intros H. unfold useEffect. by rewrite decide_True. Qed.

Lemma truthy_trim t : Js.trim t <> [] -> Js.truthy (Js.trim t) = true.
Proof. by destruct (Js.trim t). Qed.

(** ** Requests in flight *)

Lemma useEffect_keeps_ask b w k a id :
  net (useEffect b w) !! k = Some (PAsk a id) ->
  net w !! k = Some (PAsk a id).
Proof.
  unfold useEffect, loadConversationMessages.
  case_decide; [done|].
  destruct (activeConversationId (app w)) as [cid|]; [|done].
  destruct (truthy_id cid); [|done].
  simpl. rewrite lookup_insert. case_decide; [done | auto].
Qed.

Lemma handle_ask_origin e w k a id :
  net (handle e w) !! k = Some (PAsk a id) ->
  net w !! k = Some (PAsk a id) \/
  (exists iso, e = ClickAsk id iso) /\ k = next w /\
  a = activeConversationId (app w) /\
  Js.truthy (question (app w)) = true /\
  truthy (documentId (app w)) = true.
Proof.
  destruct e; simpl; try (by left).
  - unfold handleUpload. case_match; simpl; [|by left].
    rewrite lookup_insert. case_decide; [done | by left].
  - unfold handleAsk.
    destruct (Js.truthy (question (app w))) eqn:Hq; simpl; [|by left].
    destruct (truthy (documentId (app w))) eqn:Hd; simpl; [|by left].
    destruct (truthy (activeConversationId (app w))); simpl.
    all: rewrite lookup_insert; case_decide as Hk; [|by left].
    all: intros [= <- <-]; right; subst k; eauto 10.
  - unfold handleAnalyze. case_match; simpl; [by left|].
    destruct (truthy (activeConversationId (app w))); simpl.
    all: rewrite lookup_insert; case_decide; [done | by left].
  - unfold createNewConversation. case_match; simpl; [by left|].
    rewrite lookup_insert. case_decide; [done | by left].
  - unfold deleteConversation. case_match; simpl; [by left|].
    rewrite lookup_insert. case_decide; [done | by left].
  - unfold handleTitleSave. case_match; simpl; [|by left].
    rewrite lookup_insert. case_decide; [done | by left].
  - destruct (net w !! k0) as [p|] eqn:Hp; [|by left].
    destruct (resume_net p r iso (settle k0 w)) as (-> & _ & _). simpl.
    rewrite lookup_delete. case_decide; [done | by left].
Qed.

Lemma step_ask_origin e w k a id :
  net (step e w) !! k = Some (PAsk a id) ->
  net w !! k = Some (PAsk a id) \/
  (exists iso, e = ClickAsk id iso) /\ k = next w /\
  a = activeConversationId (app w) /\
  Js.truthy (question (app w)) = true /\
  truthy (documentId (app w)) = true.
Proof.
  unfold step. intros H. apply useEffect_keeps_ask in H.
  by apply handle_ask_origin.
Qed.

(** An exchange awaiting its reply was submitted by an earlier [handleAsk]. *)
Lemma ask_in_flight_was_submitted es w0 k a id :
  net (run es w0) !! k = Some (PAsk a id) ->
  net w0 !! k = Some (PAsk a id) \/
  exists pre iso post,
    es = pre ++ ClickAsk id iso :: post /\
    next (run pre w0) = k /\
    activeConversationId (app (run pre w0)) = a /\
    Js.truthy (question (app (run pre w0))) = true /\
    truthy (documentId (app (run pre w0))) = true.
Proof.
  induction es as [|e es IH] using rev_ind; simpl; [by left|].
  rewrite run_snoc. intros H.
  apply step_ask_origin in H as [H | ([iso ->] & -> & -> & Hq & Hd)].
  - destruct (IH H) as [? | (pre & iso & post & -> & ?)]; [by left | right].
    exists pre, iso, (post ++ [e]). by rewrite <- app_assoc.
  - right. exists es, iso, []. done.
Qed.

(** ** Submitting and resolving an exchange *)

Lemma handleAsk_submits (w : World) (now : Z) (iso : str) :
  Js.truthy (question (app w)) = true ->
  truthy (documentId (app w)) = true ->
  let w' := step (ClickAsk now iso) w in
  thread w' = thread w ++ [(question (app w), processing)] /\
  question (app w') = [] /\
  net w' = <[next w := PAsk (activeConversationId (app w)) now]> (net w) /\
  sent w' = sent w ++
    [ {| method := POST;
         endpoint := query_endpoint (activeConversationId (app w));
         body := QueryBody (question (app w)) (documentId (app w)) general |} ].
Proof.
  intros Hq Hd. unfold step, handle, handleAsk, thread. rewrite Hq, Hd. simpl.
  rewrite useEffect_same.
  2: { destruct (truthy (activeConversationId (app w))); reflexivity. }
  destruct (truthy (activeConversationId (app w))) eqn:Ha; simpl; rewrite Ha.
  - by rewrite fmap_app.
  - by rewrite fmap_app.
Qed.

Lemma handleAsk_step (w : World) (now : Z) (iso : str) :
  Js.truthy (question (app w)) = true ->
  truthy (documentId (app w)) = true ->
  step (ClickAsk now iso) w = handleAsk now iso w /\
  net (handleAsk now iso w) !! next w
  = Some (PAsk (activeConversationId (app w)) now) /\
  activeConversationId (app (handleAsk now iso w))
  = activeConversationId (app w).
Proof.
  intros Hq Hd. unfold step, handle, handleAsk. rewrite Hq, Hd. simpl.
  destruct (truthy (activeConversationId (app w))); simpl;
    (split; [by apply useEffect_same | split; [apply lookup_insert_eq | done]]).
Qed.

Lemma handleAsk_then_active a id r iso w :
  activeConversationId (app (handleAsk_then a id r iso w))
  = activeConversationId (app w).
Proof. unfold handleAsk_then. destruct r, (truthy a); reflexivity. Qed.

Lemma error_message_nonempty (prefix : str) (e : Failure) :
  prefix <> [] -> prefix ++ detail_or_message e <> [].
Proof. by destruct prefix. Qed.

(** An exchange that fails before anything else is appended to its
    thread: the handler still returns a state; the exchange's placeholder,
    last in the thread, keeps its question and gets as answer the string
    ["❌ Error: "] followed by the backend's [detail] when there is one and
    by the transport error's message otherwise, which is never empty; the
    thread is one longer than before the submission and no earlier
    question changed; the request is no longer in flight and nothing was
    sent again. *)
Lemma failed_exchange_shows_error
  (w : World) (now : Z) (iso iso' : str) (err : Failure) :
  Js.truthy (question (app w)) = true ->
  truthy (documentId (app w)) = true ->
  let w1 := step (ClickAsk now iso) w in
  let w2 := step (Arrive (next w) (Failed err) iso') w1 in
  let errorMessage := error_prefix ++ detail_or_message err in
  last (thread w2) = Some (question (app w), errorMessage) /\
  fst <$> thread w2 = (fst <$> thread w) ++ [question (app w)] /\
  errorMessage <> [] /\
  (forall d, detail err = Some d -> d <> [] ->
             errorMessage = error_prefix ++ d) /\
  (detail err = None -> errorMessage = error_prefix ++ message err) /\
  net w2 !! next w = None /\
  sent w2 = sent w1 /\
  asking (app w2) = false.
Proof.
  intros Hq Hd. simpl.
  destruct (handleAsk_step w now iso Hq Hd) as (-> & Hnet & Hact).
  set (errorMessage := error_prefix ++ detail_or_message err).
  set (w2 := step _ _).
  assert (w2 = handleAsk_then (activeConversationId (app w)) now
                 (Failed err) iso' (settle (next w) (handleAsk now iso w)))
    as ->.
  { subst w2. unfold step, handle. rewrite Hnet. cbv beta iota.
    unfold resume. apply useEffect_same.
    by rewrite handleAsk_then_active. }
  clear Hnet Hact.
  unfold thread, handleAsk_then, handleAsk. rewrite Hq, Hd. simpl.
  fold errorMessage.
  assert (errorMessage <> []) as Hne by (by apply error_message_nonempty).
  assert (forall d, detail err = Some d -> d <> [] ->
                    errorMessage = error_prefix ++ d) as Hdet.
  { intros d Hd' Hd0. subst errorMessage. unfold detail_or_message.
    rewrite Hd'. by destruct d. }
  assert (detail err = None -> errorMessage = error_prefix ++ message err)
    as Hmsg.
  { intros Hd'. subst errorMessage. unfold detail_or_message.
    by rewrite Hd'. }
  destruct (truthy (activeConversationId (app w))) eqn:Ha; simpl; rewrite Ha.
  - rewrite map_last_snoc, !fmap_app. simpl. rewrite last_snoc.
    rewrite <- !list_fmap_compose.
    repeat split; try done. apply lookup_delete_eq.
  - rewrite answer_entry_snoc, !fmap_app. simpl. rewrite last_snoc.
    rewrite <- !list_fmap_compose.
    repeat split; try done; [|apply lookup_delete_eq].
    f_equal.
    change (fst ∘ (fun h : Entry => (ent_question h, ent_answer h)))
      with ent_question.
    apply answer_entry_questions.
Qed.

Lemma failed_exchange_shows_error_example :
  let w := run Sample.opened mount in
  let w1 := step (ClickAsk 1000 Sample.t1) w in
  let w2 := step (Arrive (next w) (Failed Sample.network_error) Sample.t2) w1 in
  let errorMessage := error_prefix ++ detail_or_message Sample.network_error in
  last (thread w2) = Some (question (app w), errorMessage) /\
  fst <$> thread w2 = (fst <$> thread w) ++ [question (app w)] /\
  errorMessage <> [] /\
  (forall d, detail Sample.network_error = Some d -> d <> [] ->
             errorMessage = error_prefix ++ d) /\
  (detail Sample.network_error = None ->
   errorMessage = error_prefix ++ message Sample.network_error) /\
  net w2 !! next w = None /\
  sent w2 = sent w1 /\
  asking (app w2) = false.
Proof.
  apply (failed_exchange_shows_error
           (run Sample.opened mount) 1000 Sample.t1 Sample.t2 Sample.network_error);
    reflexivity.
Qed.

(** In unfiled mode the reply of an exchange, whenever it arrives, sets
    the answer of the entries that carry the exchange's id and of no
    other. *)
Lemma unfiled_resolution_by_id (w : World) (k : nat) (a : option Ident)
  (id : Z) (r : Reply) (iso : str) :
  net w !! k = Some (PAsk a id) ->
  truthy a = false ->
  history (app (step (Arrive k r iso) w))
  = answer_entry id
      match r with
      | Ok d => data_answer d
      | Failed err => error_prefix ++ detail_or_message err
      end
      (history (app w)).
Proof.
  intros Hk Ha. unfold step, handle. rewrite Hk. cbv beta iota.
  unfold resume.
  match goal with |- context [useEffect ?b ?x] =>
    destruct (useEffect_frame b x) as (_ & _ & -> & _) end.
  unfold handleAsk_then. rewrite Ha. by destruct r.
Qed.

(** In a conversation the reply sets the answer of whatever message is
    last when it arrives. *)
Lemma conversation_resolution_by_position (w : World) (k : nat)
  (a : option Ident) (id : Z) (d : Data) (iso : str) :
  net w !! k = Some (PAsk a id) ->
  truthy a = true ->
  conversationMessages (app (step (Arrive k (Ok d) iso) w))
  = map_last (fun msg =>
                {| msg_question := msg_question msg;
                   msg_answer := data_answer d;
                   msg_task_type := data_task_type d;
                   msg_timestamp := iso |})
      (conversationMessages (app w)).
Proof.
  intros Hk Ha. unfold step, handle. rewrite Hk. cbv beta iota.
  unfold resume. rewrite useEffect_same.
  - unfold handleAsk_then. by rewrite Ha.
  - by rewrite handleAsk_then_active.
Qed.

(** No resolution, of whichever exchange and whenever it arrives, changes
    a question on display. *)
Lemma resolution_keeps_questions (w : World) (k : nat) (a : option Ident)
  (id : Z) (r : Reply) (iso : str) :
  net w !! k = Some (PAsk a id) ->
  fst <$> thread (step (Arrive k r iso) w) = fst <$> thread w.
Proof.
  intros Hk. unfold step, handle. rewrite Hk. cbv beta iota.
  unfold resume. rewrite useEffect_same by (by rewrite handleAsk_then_active).
  unfold thread. rewrite handleAsk_then_active. simpl.
  destruct (truthy (activeConversationId (app w))).
  - rewrite <- !list_fmap_compose.
    change (fst ∘ (fun m : Message => (msg_question m, msg_answer m)))
      with msg_question.
    unfold handleAsk_then.
    destruct r, (truthy a); simpl; try done; by apply map_last_questions.
  - rewrite <- !list_fmap_compose.
    change (fst ∘ (fun h : Entry => (ent_question h, ent_answer h)))
      with ent_question.
    unfold handleAsk_then.
    destruct r, (truthy a); simpl; try done; apply answer_entry_questions.
Qed.

(** ** C1: resolution under interleaving *)

(** C1 (the code departs from it). In an open conversation the user asks
    a question and, before the answer arrives, starts the analysis, which
    the interface offers.  The answer to the question then lands on the
    analysis placeholder, the last message, and the analysis answer
    overwrites it there once more: the question's placeholder is never
    resolved although nothing is in flight any more. *)
Theorem interleaved_replies_resolve_last_message :
  let asked :=
    Sample.opened ++ [ ClickAsk 1000 Sample.t1; ClickAnalyze 1001 Sample.t2 ] in
  let first := asked ++ [ Arrive 3 (Ok Sample.normal) Sample.t3 ] in
  let second := first ++ [ Arrive 4 (Ok Sample.summary) Sample.t4 ] in
  offered second mount = true /\
  net (run asked mount) !! 3%nat = Some (PAsk (Some Sample.c1) 1000) /\
  net (run asked mount) !! 4%nat = Some (PAnalyze (Some Sample.c1) 1001) /\
  thread (run asked mount)
  = [ (Sample.q, processing);
      (comprehensive_analysis, analyzing_document) ] /\
  thread (run first mount)
  = [ (Sample.q, processing);
      (comprehensive_analysis, lit "Normal") ] /\
  thread (run second mount)
  = [ (Sample.q, processing);
      (comprehensive_analysis, lit "Summary") ] /\
  net (run second mount) = ∅.
Proof. vm_compute. repeat split. Qed.

(** ** C2: the placeholder comes first *)

(** C2. Submitting an exchange appends the placeholder, whose answer is
    the processing sentinel, to the thread on display and empties the
    composer in the same step that sends the request, so before any reply;
    and along every run from the first render, an exchange whose reply can
    still arrive was submitted by an earlier step of that run, which is
    where its placeholder was appended. *)
Theorem placeholder_precedes_resolution
  (w : World) (now : Z) (iso : str)
  (es : list Event) (k : nat) (a : option Ident) (id : Z) :
  (Js.truthy (question (app w)) = true ->
   truthy (documentId (app w)) = true ->
   let w' := step (ClickAsk now iso) w in
   thread w' = thread w ++ [(question (app w), processing)] /\
   question (app w') = [] /\
   net w' !! next w = Some (PAsk (activeConversationId (app w)) now)) /\
  (net (run es mount) !! k = Some (PAsk a id) ->
   exists pre iso0 post,
     es = pre ++ ClickAsk id iso0 :: post /\
     let w0 := run pre mount in
     let w1 := step (ClickAsk id iso0) w0 in
     next w0 = k /\
     activeConversationId (app w0) = a /\
     thread w1 = thread w0 ++ [(question (app w0), processing)] /\
     question (app w1) = [] /\
     net w1 !! k = Some (PAsk a id)).
Proof.
  split.
  - intros Hq Hd.
    destruct (handleAsk_submits w now iso Hq Hd) as (Ht & Hc & Hn & _).
    repeat split; [done | done |]. rewrite Hn. apply lookup_insert_eq.
  - intros H. apply ask_in_flight_was_submitted in H as [H | H].
    { unfold mount, loadConversations, issue in H. simpl in H.
      rewrite lookup_insert in H. case_decide; [done|].
      by rewrite lookup_empty in H. }
    destruct H as (pre & iso0 & post & -> & Hk & Ha & Hq & Hd).
    exists pre, iso0, post. split; [done|]. simpl.
    destruct (handleAsk_submits (run pre mount) id iso0 Hq Hd)
      as (Ht & Hc & Hn & _).
    repeat split; try done. rewrite Hn, Ha, <- Hk. apply lookup_insert_eq.
Qed.

Lemma placeholder_precedes_resolution_witness :
  let w := run Sample.opened mount in
  (let w' := step (ClickAsk 1000 Sample.t1) w in
   thread w' = thread w ++ [(Sample.q, processing)] /\
   question (app w') = [] /\
   net w' !! 3%nat = Some (PAsk (Some Sample.c1) 1000)) /\
  (exists pre iso0 post,
     Sample.opened ++ [ClickAsk 1000 Sample.t1; ClickAnalyze 1001 Sample.t2]
     = pre ++ ClickAsk 1000 iso0 :: post /\
     let w0 := run pre mount in
     let w1 := step (ClickAsk 1000 iso0) w0 in
     next w0 = 3%nat /\
     activeConversationId (app w0) = Some Sample.c1 /\
     thread w1 = thread w0 ++ [(question (app w0), processing)] /\
     question (app w1) = [] /\
     net w1 !! 3%nat = Some (PAsk (Some Sample.c1) 1000)).
Proof.
  pose proof (placeholder_precedes_resolution
                (run Sample.opened mount) 1000 Sample.t1
                (Sample.opened ++
                   [ClickAsk 1000 Sample.t1; ClickAnalyze 1001 Sample.t2])
                3%nat (Some Sample.c1) 1000) as [H1 H2].
  split.
  - apply H1; reflexivity.
  - apply H2. vm_compute. reflexivity.
Defined.

(** ** C3: create *)

Lemma create_sends (title : str) (w : World) :
  Js.trim title <> [] ->
  let w1 := step ClickCreate (step (ChangeNewTitle title) w) in
  net w1 = <[next w := PCreate]> (net w) /\
  next w1 = S (next w) /\
  sent w1 = sent w ++
    [ {| method := POST; endpoint := EConversations;
         body := CreateBody title general |} ] /\
  store w1 = store w.
Proof.
  intros Ht. unfold step at 2. simpl. rewrite useEffect_same by reflexivity.
  unfold step, handle, createNewConversation. simpl.
  rewrite (truthy_trim _ Ht). simpl. by rewrite useEffect_same.
Qed.

Lemma create_acknowledged (title : str) (d : Data) (w : World) :
  Js.trim title <> [] ->
  data_status d = success ->
  let w' := create title (Ok d) w in
  conversations (side w') = data_conversation d :: conversations (side w) /\
  activeConversationId (app w') = Some (conv_id (data_conversation d)).
Proof.
  intros Ht Hs. unfold create.
  destruct (create_sends title w Ht) as (Hn & _ & _ & Hst).
  set (w1 := step ClickCreate (step (ChangeNewTitle title) w)) in *.
  injection Hst as Hc _ _.
  unfold step, handle. rewrite Hn, lookup_insert_eq. cbv beta iota.
  unfold resume.
  destruct (useEffect_frame (activeConversationId (app w1))
              (createNewConversation_then (Ok d) (settle (next w) w1)))
    as (-> & -> & _).
  unfold createNewConversation_then. rewrite decide_True by done.
  simpl. by rewrite Hc.
Qed.

(** The same for a create whose acknowledgement arrives later, whatever
    happened in between. *)
Lemma create_reply_prepends (w : World) (k : nat) (d : Data) (iso : str) :
  net w !! k = Some PCreate ->
  data_status d = success ->
  let w' := step (Arrive k (Ok d) iso) w in
  conversations (side w') = data_conversation d :: conversations (side w) /\
  activeConversationId (app w') = Some (conv_id (data_conversation d)).
Proof.
  intros Hk Hs. unfold step, handle. rewrite Hk. cbv beta iota.
  unfold resume.
  match goal with |- context [useEffect ?b ?x] =>
    destruct (useEffect_frame b x) as (-> & -> & _) end.
  unfold createNewConversation_then. by rewrite decide_True.
Qed.

Lemma create_not_acknowledged (title : str) (r : Reply) (w : World) :
  Js.trim title <> [] ->
  acknowledged r = false ->
  store (create title r w) = store w.
Proof.
  intros Ht Hr. unfold create.
  destruct (create_sends title w Ht) as (Hn & _ & _ & Hst).
  set (w1 := step ClickCreate (step (ChangeNewTitle title) w)) in *.
  rewrite <- Hst.
  unfold step, handle. rewrite Hn, lookup_insert_eq. cbv beta iota.
  unfold resume.
  assert (createNewConversation_then r (settle (next w) w1)
          = settle (next w) w1) as ->.
  { destruct r as [d|e]; simpl; [|done].
    apply bool_decide_eq_false in Hr. by rewrite decide_False. }
  by rewrite useEffect_same.
Qed.

(** C3. Along any sequence of [create] calls with titles that do not trim
    to the empty string, the conversation list grows by one for each call
    the backend acknowledges and by nothing otherwise; and an acknowledged
    call that follows any such sequence puts the conversation the backend
    created at the head of the list, one longer than before, and makes it
    the active conversation. *)
Theorem create_prepends_and_activates
  (calls : list (str * Reply)) (title : str) (d : Data) (w : World) :
  Forall (fun c => Js.trim (fst c) <> []) calls ->
  Js.trim title <> [] ->
  data_status d = success ->
  let w0 := creates calls w in
  let w1 := create title (Ok d) w0 in
  length (conversations (side w0))
  = (length (conversations (side w))
     + length (filter (fun c => acknowledged (snd c) = true) calls))%nat /\
  length (conversations (side w1)) = S (length (conversations (side w0))) /\
  conversations (side w1) = data_conversation d :: conversations (side w0) /\
  activeConversationId (app w1) = Some (conv_id (data_conversation d)).
Proof.
  intros Hcalls Ht Hs. simpl.
  destruct (create_acknowledged title d (creates calls w) Ht Hs) as [Hc Ha].
  rewrite Hc, Ha. repeat split; try done.
  clear Hc Ha. revert w.
  induction Hcalls as [|[t r] calls Htr _ IH]; intros w; simpl; [lia|].
  rewrite IH. simpl in Htr.
  destruct (acknowledged r) eqn:Hr.
  - rewrite filter_cons_True by done. simpl.
    destruct r as [d'|]; [|done]. apply bool_decide_eq_true in Hr.
    destruct (create_acknowledged t d' w Htr Hr) as [-> _]. simpl. lia.
  - rewrite filter_cons_False by (simpl; congruence).
    pose proof (create_not_acknowledged t r w Htr Hr) as Hst.
    injection Hst as -> _ _. lia.
Qed.

Lemma create_prepends_and_activates_witness :
  let calls := [ (lit "Lab Results", Ok Sample.normal);
                 (lit " Scan ", Failed Sample.network_error) ] in
  let w0 := creates calls mount in
  let w1 := create (lit "Follow-up") (Ok Sample.summary) w0 in
  length (conversations (side w0))
  = (length (conversations (side mount))
     + length (filter (fun c => acknowledged (snd c) = true) calls))%nat /\
  length (conversations (side w1)) = S (length (conversations (side w0))) /\
  conversations (side w1)
  = data_conversation Sample.summary :: conversations (side w0) /\
  activeConversationId (app w1)
  = Some (conv_id (data_conversation Sample.summary)).
Proof.
  apply (create_prepends_and_activates
           [ (lit "Lab Results", Ok Sample.normal);
             (lit " Scan ", Failed Sample.network_error) ]
           (lit "Follow-up") Sample.summary mount).
  - repeat constructor; discriminate.
  - discriminate.
  - reflexivity.
Defined.

(** ** C4: the analysis variant *)

Lemma handleAnalyze_step (w : World) (now : Z) (iso : str) :
  truthy (documentId (app w)) = true ->
  step (ClickAnalyze now iso) w = handleAnalyze now iso w /\
  net (handleAnalyze now iso w) !! next w
  = Some (PAnalyze (activeConversationId (app w)) now) /\
  activeConversationId (app (handleAnalyze now iso w))
  = activeConversationId (app w).
Proof.
  intros Hd. unfold step, handle, handleAnalyze. rewrite Hd. simpl.
  destruct (truthy (activeConversationId (app w))); simpl;
    (split; [by apply useEffect_same | split; [apply lookup_insert_eq | done]]).
Qed.

Lemma handleAnalyze_then_active a id r w :
  activeConversationId (app (handleAnalyze_then a id r w))
  = activeConversationId (app w).
Proof. unfold handleAnalyze_then. destruct r, (truthy a); reflexivity. Qed.

Lemma query_endpoint_not_analyze (a : option Ident) :
  query_endpoint a <> EAnalyze.
Proof. destruct a as [cid|]; simpl; [by destruct (truthy_id cid) | done]. Qed.

(** C4 (as amended). The analysis of [FinalApp] runs the two phases of a
    question exchange: it appends a placeholder and sends one request,
    whose question is the fixed string
    ["Provide a comprehensive analysis of this document"] whatever the
    composer holds, and whose reply resolves the placeholder.  The request
    goes to the endpoint a question asked at the same moment goes to
    ([/query], or [/query/{id}] in a conversation), never to [/analyze].
    The analysis that posts to [/analyze] is that of the two [App]
    variants without conversations: their request carries the policy id
    and no question; the history variant shows the exchange under the
    fixed question ["AI Analysis"] and resolves it by entry id. *)
Theorem analysis_posts_to_question_endpoint
  (w : World) (now : Z) (iso iso' : str) (r : Reply)
  (s : PolicyApp.State) (h : HistoryApp.State) :
  (truthy (documentId (app w)) = true ->
   let active := activeConversationId (app w) in
   let w1 := step (ClickAnalyze now iso) w in
   let w2 := step (Arrive (next w) r iso') w1 in
   thread w1 = thread w ++ [(comprehensive_analysis, analyzing_document)] /\
   sent w1 = sent w ++
     [ {| method := POST; endpoint := query_endpoint active;
          body := QueryBody analysis_question (documentId (app w)) general |} ] /\
   query_endpoint active <> EAnalyze /\
   (Js.truthy (question (app w)) = true ->
    endpoint <$> last (sent (step (ClickAsk now iso) w))
    = Some (query_endpoint active)) /\
   last (thread w2)
   = Some (comprehensive_analysis,
           match r with
           | Ok d => data_answer d
           | Failed err => analysis_failed_prefix ++ detail_or_message err
           end)) /\
  (truthy (PolicyApp.policyId s) = true ->
   PolicyApp.outbox (PolicyApp.handleAnalyze s)
   = PolicyApp.outbox s ++
     [ {| method := POST; endpoint := EAnalyze;
          body := PolicyBody (PolicyApp.policyId s) |} ]) /\
  (truthy (HistoryApp.policyId h) = true ->
   let h1 := HistoryApp.handleAnalyze now h in
   let h2 := HistoryApp.handleAnalyze_then now r h1 in
   HistoryApp.outbox h1
   = HistoryApp.outbox h ++
     [ {| method := POST; endpoint := EAnalyze;
          body := PolicyBody (HistoryApp.policyId h) |} ] /\
   HistoryApp.history h1
   = HistoryApp.history h ++
     [ {| ent_id := now; ent_question := HistoryApp.ai_analysis;
          ent_answer := HistoryApp.analyzing_ |} ] /\
   HistoryApp.outbox h2 = HistoryApp.outbox h1 /\
   last (HistoryApp.history h2)
   = Some {| ent_id := now; ent_question := HistoryApp.ai_analysis;
             ent_answer :=
               match r with
               | Ok d => data_answer d
               | Failed err =>
                   HistoryApp.analysis_failed ++ detail_or_message err
               end |}).
Proof.
  split; [|split].
  - intros Hd. simpl.
    destruct (handleAnalyze_step w now iso Hd) as (-> & Hnet & Hact).
    set (w2 := step (Arrive _ _ _) _).
    assert (w2 = handleAnalyze_then (activeConversationId (app w)) now r
                   (settle (next w) (handleAnalyze now iso w))) as ->.
    { subst w2. unfold step, handle. rewrite Hnet. cbv beta iota.
      unfold resume. apply useEffect_same.
      by rewrite handleAnalyze_then_active. }
    clear Hnet Hact.
    split; [|split; [|split; [|split]]].
    + unfold thread, handleAnalyze. rewrite Hd. simpl.
      destruct (truthy (activeConversationId (app w))) eqn:Ha; simpl;
        rewrite Ha; by rewrite fmap_app.
    + unfold handleAnalyze. rewrite Hd. simpl.
      by destruct (truthy (activeConversationId (app w))).
    + apply query_endpoint_not_analyze.
    + intros Hq.
      destruct (handleAsk_submits w now iso Hq Hd) as (_ & _ & _ & ->).
      by rewrite last_snoc.
    + unfold thread, handleAnalyze_then, handleAnalyze. rewrite Hd. simpl.
      destruct (truthy (activeConversationId (app w))) eqn:Ha, r as [d|err];
        simpl; rewrite Ha.
      all: rewrite ?map_last_snoc, ?answer_entry_snoc, !fmap_app; simpl.
      all: by rewrite last_snoc.
  - intros Hp. unfold PolicyApp.handleAnalyze. by rewrite Hp.
  - intros Hp. unfold HistoryApp.handleAnalyze_then, HistoryApp.handleAnalyze.
    rewrite Hp. simpl. repeat split.
    rewrite answer_entry_snoc. by rewrite last_snoc.
Qed.

Lemma analysis_posts_to_question_endpoint_witness :
  let w := run Sample.opened mount in
  let s := {| PolicyApp.question := []; PolicyApp.answer := [];
              PolicyApp.originalSections := []; PolicyApp.taskType := [];
              PolicyApp.asking := false; PolicyApp.analyzing := false;
              PolicyApp.policyId := Some Sample.doc;
              PolicyApp.outbox := [] |} in
  let h := {| HistoryApp.question := []; HistoryApp.history := [];
              HistoryApp.policyId := Some Sample.doc;
              HistoryApp.asking := false; HistoryApp.analyzing := false;
              HistoryApp.outbox := [] |} in
  sent (step (ClickAnalyze 1001 Sample.t2) w)
  = sent w ++
    [ {| method := POST; endpoint := EQueryIn Sample.c1;
         body := QueryBody analysis_question (Some Sample.doc) general |} ] /\
  PolicyApp.outbox (PolicyApp.handleAnalyze s)
  = [ {| method := POST; endpoint := EAnalyze;
         body := PolicyBody (Some Sample.doc) |} ] /\
  HistoryApp.outbox (HistoryApp.handleAnalyze 1001 h)
  = [ {| method := POST; endpoint := EAnalyze;
         body := PolicyBody (Some Sample.doc) |} ].
Proof.
  intros w s h.
  pose proof (analysis_posts_to_question_endpoint
                w 1001 Sample.t2 Sample.t3 (Ok Sample.summary) s h)
    as (H1 & H2 & H3).
  split; [|split].
  - apply H1. reflexivity.
  - apply H2. reflexivity.
  - apply H3. reflexivity.
Defined.

(** C4 as stated fails: in the open conversation of the scenario, and in
    unfiled mode alike, the analysis request goes to the question
    endpoint, not to [/analyze]. *)
Lemma analysis_request_is_not_to_analyze :
  let w := run Sample.opened mount in
  let u := run Sample.unfiled mount in
  endpoint <$> last (sent (step (ClickAnalyze 1001 Sample.t2) w))
  = Some (EQueryIn Sample.c1) /\
  endpoint <$> last (sent (step (ClickAnalyze 1001 Sample.t2) u))
  = Some EQuery /\
  endpoint <$> last (sent (step (ClickAnalyze 1001 Sample.t2) w))
  <> Some EAnalyze /\
  endpoint <$> last (sent (step (ClickAnalyze 1001 Sample.t2) u))
  <> Some EAnalyze.
Proof. vm_compute. repeat split; discriminate. Qed.

(** ** C5: validation *)

(** C5. Creating with a title that trims to the empty string, and
    submitting with an empty question or without a document identifier,
    are rejected on the spot: the handler returns the state it was given,
    so no request is sent or in flight and the conversation list, the
    thread and the active selection are as before. *)
Theorem validation_rejects_locally (w : World) (now : Z) (iso : str) :
  (Js.trim (newTitle (side w)) = [] -> step ClickCreate w = w) /\
  (question (app w) = [] \/ truthy (documentId (app w)) = false ->
   step (ClickAsk now iso) w = w).
Proof.
  split.
  - intros H. unfold step, handle, createNewConversation. rewrite H. simpl.
    unfold useEffect. by rewrite decide_True.
  - intros H. unfold step, handle, handleAsk.
    assert (negb (Js.truthy (question (app w)))
            || negb (truthy (documentId (app w))) = true) as ->.
    { destruct H as [-> | ->]; [done | apply orb_true_r]. }
    unfold useEffect. by rewrite decide_True.
Qed.

Lemma validation_rejects_locally_witness :
  step ClickCreate (run [OpenModal; ChangeNewTitle (lit "   ")] mount)
  = run [OpenModal; ChangeNewTitle (lit "   ")] mount /\
  step (ClickAsk 1000 Sample.t1) mount = mount.
Proof.
  split.
  - apply (proj1 (validation_rejects_locally
                    (run [OpenModal; ChangeNewTitle (lit "   ")] mount) 0 [])).
    reflexivity.
  - apply (proj2 (validation_rejects_locally mount 1000 Sample.t1)).
    left. reflexivity.
Defined.

(** ** C6: switching the active conversation *)

Lemma setActive_switch (w : World) (cid : Ident) :
  truthy_id cid = true ->
  activeConversationId (app w) <> Some cid ->
  setActive (Some cid) w
  = loadConversationMessages cid (handleConversationSelect (Some cid) w).
Proof.
  intros Ht Hne. unfold setActive, useEffect. simpl.
  rewrite decide_False by done. by rewrite Ht.
Qed.

Lemma setActive_clear (w : World) (target : option Ident) :
  truthy target = false ->
  activeConversationId (app w) <> target ->
  setActive target w
  = setConversationMessages (fun _ => [])
      (handleConversationSelect target w).
Proof.
  intros Ht Hne. unfold setActive, useEffect. simpl.
  rewrite decide_False by congruence.
  destruct target as [cid|]; [|done]. simpl in Ht. by rewrite Ht.
Qed.

(** The acknowledged reply to a load of messages, whenever it arrives,
    replaces the messages with the list it carries; it changes neither the
    selection nor anything else of the application and sends nothing. *)
Lemma message_load_reply_replaces (w : World) (k : nat) (d : Data)
  (iso : str) :
  net w !! k = Some PLoadMessages ->
  data_status d = success ->
  let w' := step (Arrive k (Ok d) iso) w in
  conversationMessages (app w') = data_messages d /\
  activeConversationId (app w') = activeConversationId (app w) /\
  sent w' = sent w.
Proof.
  intros Hk Hs. simpl. unfold step, handle. rewrite Hk. cbv beta iota.
  unfold resume, loadConversationMessages_then. rewrite decide_True by done.
  by rewrite useEffect_same.
Qed.

(** C6 (as amended). Switching to a conversation other than the active
    one, whose id is truthy, sends the GET for its messages and leaves it
    in flight, and when that is answered with [status: 'success'] the
    active messages are exactly the list returned, whatever they were
    before.  The same holds for the acknowledged reply to any load of
    messages, however late it arrives and whichever conversation is
    active by then: it replaces the active messages and leaves the
    selection alone, so the reply to an earlier load that arrives after a
    switch overwrites what the switch has loaded.  When the selection
    changes to null, or to an id that is falsy, the active messages become
    empty and nothing is sent.  Selecting what is already selected sends
    nothing and keeps the active messages as they are. *)
Theorem setActive_replaces_messages_on_switch
  (backend : Ident -> Reply) (w : World) (cid : Ident) (d : Data)
  (late : World) (k : nat) (iso : str) :
  (truthy_id cid = true ->
   activeConversationId (app w) <> Some cid ->
   backend cid = Ok d ->
   data_status d = success ->
   sent (setActive (Some cid) w) = sent w ++
     [ {| method := GET; endpoint := EConversation cid; body := NoBody |} ] /\
   net (setActive (Some cid) w) !! next w = Some PLoadMessages /\
   activeConversationId (app (setActive (Some cid) w)) = Some cid /\
   activeConversationId (app (setActive_with backend (Some cid) w))
   = Some cid /\
   conversationMessages (app (setActive_with backend (Some cid) w))
   = data_messages d) /\
  (net late !! k = Some PLoadMessages ->
   data_status d = success ->
   let late' := step (Arrive k (Ok d) iso) late in
   conversationMessages (app late') = data_messages d /\
   activeConversationId (app late') = activeConversationId (app late) /\
   sent late' = sent late) /\
  (activeConversationId (app w) <> None ->
   sent (setActive_with backend None w) = sent w /\
   activeConversationId (app (setActive_with backend None w)) = None /\
   conversationMessages (app (setActive_with backend None w)) = []) /\
  (truthy_id cid = false ->
   activeConversationId (app w) <> Some cid ->
   sent (setActive_with backend (Some cid) w) = sent w /\
   conversationMessages (app (setActive_with backend (Some cid) w)) = []) /\
  (let target := activeConversationId (app w) in
   sent (setActive_with backend target w) = sent w /\
   conversationMessages (app (setActive_with backend target w))
   = conversationMessages (app w)).
Proof.
  split; [|split; [|split; [|split]]].
  - intros Ht Hne Hb Hs. unfold setActive_with.
    rewrite (setActive_switch w cid Ht Hne). simpl.
    rewrite decide_False by lia.
    split; [done|]. split; [apply lookup_insert_eq|]. split; [done|].
    unfold step, handle. simpl. rewrite lookup_insert_eq, Hb. simpl.
    unfold loadConversationMessages_then. rewrite decide_True by done.
    by rewrite useEffect_same.
  - intros Hk Hs. by apply message_load_reply_replaces.
  - intros Hne. unfold setActive_with.
    by rewrite (setActive_clear w None).
  - intros Ht Hne. unfold setActive_with.
    rewrite (setActive_clear w (Some cid)) by done. simpl.
    by rewrite decide_True.
  - simpl. unfold setActive_with, setActive. simpl.
    rewrite useEffect_same by done.
    destruct (activeConversationId (app w)) as [c|]; [|done].
    by rewrite decide_True.
Qed.

Lemma setActive_replaces_messages_on_switch_witness :
  let w := run Stored.asked mount in
  let v := run (Stored.switched ++ [Arrive 2 (Stored.backend Stored.c2) []])
             mount in
  let placeholder :=
    {| msg_question := Sample.q; msg_answer := processing;
       msg_task_type := unknown; msg_timestamp := Sample.t1 |} in
  conversationMessages (app w) = [Stored.results; placeholder] /\
  conversationMessages (app (setActive_with Stored.backend (Some Stored.c2) w))
  = [Stored.finding; Stored.follow_up] /\
  conversationMessages (app (setActive_with Stored.backend None w)) = [] /\
  conversationMessages (app (setActive_with Stored.backend (Some (IdNum 0)) w))
  = [] /\
  conversationMessages (app (setActive_with Stored.backend (Some Sample.c1) w))
  = [Stored.results; placeholder] /\
  (activeConversationId (app v) = Some Stored.c2 /\
   conversationMessages (app v) = [Stored.finding; Stored.follow_up] /\
   let v' := step (Arrive 1 (Stored.backend Sample.c1) []) v in
   conversationMessages (app v') = [Stored.results] /\
   activeConversationId (app v') = Some Stored.c2).
Proof.
  intros w v placeholder.
  split; [vm_compute; reflexivity|].
  split; [|split; [|split; [|split]]].
  - pose proof (setActive_replaces_messages_on_switch Stored.backend w
                  Stored.c2 (Stored.body [Stored.finding; Stored.follow_up])
                  w 0%nat []) as (H & _).
    apply H;
      [reflexivity | vm_compute; discriminate | reflexivity | reflexivity].
  - pose proof (setActive_replaces_messages_on_switch Stored.backend w
                  Stored.c2 (Stored.body []) w 0%nat []) as (_ & _ & H & _).
    apply H. vm_compute. discriminate.
  - pose proof (setActive_replaces_messages_on_switch Stored.backend w
                  (IdNum 0) (Stored.body []) w 0%nat [])
      as (_ & _ & _ & H & _).
    apply H; [reflexivity | vm_compute; discriminate].
  - pose proof (setActive_replaces_messages_on_switch Stored.backend w
                  Sample.c1 (Stored.body []) w 0%nat [])
      as (_ & _ & _ & _ & H).
    etransitivity; [apply H | vm_compute; reflexivity].
  - split; [vm_compute; reflexivity|]. split; [vm_compute; reflexivity|].
    pose proof (setActive_replaces_messages_on_switch Stored.backend w
                  Sample.c1 (Stored.body [Stored.results]) v 1%nat [])
      as (_ & H & _).
    destruct H as (H1 & H2 & _);
      [vm_compute; reflexivity | reflexivity |].
    split; [exact H1|].
    etransitivity; [exact H2 | vm_compute; reflexivity].
Defined.

(** C6 as stated fails.  With "Lab Results" open and a question just
    submitted, selecting "Lab Results" again sends no request: the thread
    keeps the local placeholder and is not the list the backend holds for
    that id.  And for the non-null id [0] no request is sent either: the
    messages are emptied, whatever the backend holds for it. *)
Lemma reselecting_does_not_reload :
  let backend := fun _ : Ident => Ok Sample.normal in
  let w := run (Sample.opened ++ [ClickAsk 1000 Sample.t1]) mount in
  let stored :=
    {| msg_question := Sample.q; msg_answer := lit "Normal";
       msg_task_type := lit "translation"; msg_timestamp := Sample.t3 |} in
  let holding := fun _ : Ident =>
    Ok {| data_status := success; data_conversations := [];
          data_conversation := Sample.lab_results;
          data_messages := [stored]; data_answer := [];
          data_task_type := []; data_document_id := None |} in
  activeConversationId (app w) = Some Sample.c1 /\
  sent (setActive_with backend (Some Sample.c1) w) = sent w /\
  conversationMessages (app (setActive_with backend (Some Sample.c1) w))
  <> data_messages Sample.normal /\
  sent (setActive_with holding (Some (IdNum 0)) w) = sent w /\
  conversationMessages (app (setActive_with holding (Some (IdNum 0)) w))
  <> [stored].
Proof. vm_compute. repeat split; discriminate. Qed.

(** ** C7: deleting the active conversation *)

(** The reply to a DELETE that was requested while [cid] was active,
    arriving while [cid] is still active. *)
Lemma delete_of_active_settles (w : World) (k : nat) (cid : Ident)
  (d : Data) (iso : str) :
  net w !! k = Some (PDelete cid (Some cid)) ->
  activeConversationId (app w) = Some cid ->
  let w' := step (Arrive k (Ok d) iso) w in
  conversations (side w')
  = filter (fun c => conv_id c <> cid) (conversations (side w)) /\
  activeConversationId (app w') = None /\
  conversationMessages (app w') = [].
Proof.
  intros Hk Ha. unfold step, handle. rewrite Hk. cbv beta iota.
  unfold resume, deleteConversation_then. rewrite decide_True by done.
  unfold useEffect. rewrite Ha. simpl. done.
Qed.

(** C7. When the conversation that is active is deleted (the user
    confirms and the DELETE succeeds) it leaves the conversation list, the
    active selection becomes null and the active messages become empty.
    Without the confirmation nothing happens at all. *)
Theorem delete_active_clears_selection
  (w : World) (cid : Ident) (d : Data) (iso : str) :
  activeConversationId (app w) = Some cid ->
  let w1 := step (ClickDelete cid true) w in
  let w2 := step (Arrive (next w) (Ok d) iso) w1 in
  step (ClickDelete cid false) w = w /\
  sent w1 = sent w ++
    [ {| method := DELETE; endpoint := EConversation cid; body := NoBody |} ] /\
  conversations (side w2)
  = filter (fun c => conv_id c <> cid) (conversations (side w)) /\
  (cid ∉ (conv_id <$> conversations (side w2))) /\
  activeConversationId (app w2) = None /\
  conversationMessages (app w2) = [].
Proof.
  intros Ha. simpl.
  assert (step (ClickDelete cid true) w
          = deleteConversation cid true w) as Hw1.
  { unfold step. simpl. by rewrite useEffect_same. }
  rewrite Hw1.
  destruct (delete_of_active_settles (deleteConversation cid true w)
              (next w) cid d iso) as (Hc & Hact & Hm).
  { unfold deleteConversation. simpl. rewrite Ha. apply lookup_insert_eq. }
  { done. }
  rewrite Hc, Hact, Hm. repeat split; try done.
  { unfold step. simpl. by rewrite useEffect_same. }
  simpl. intros Hin. apply list_elem_of_fmap in Hin as (c & -> & Hin).
  apply list_elem_of_filter in Hin as [Hne _]. done.
Qed.

Lemma delete_active_clears_selection_witness :
  let w := run (Sample.opened ++ [ClickAsk 1000 Sample.t1]) mount in
  let w1 := step (ClickDelete Sample.c1 true) w in
  let w2 := step (Arrive (next w) (Ok Sample.normal) []) w1 in
  step (ClickDelete Sample.c1 false) w = w /\
  sent w1 = sent w ++
    [ {| method := DELETE; endpoint := EConversation Sample.c1;
         body := NoBody |} ] /\
  conversations (side w2)
  = filter (fun c => conv_id c <> Sample.c1) (conversations (side w)) /\
  (Sample.c1 ∉ (conv_id <$> conversations (side w2))) /\
  activeConversationId (app w2) = None /\
  conversationMessages (app w2) = [].
Proof.
  apply (delete_active_clears_selection
           (run (Sample.opened ++ [ClickAsk 1000 Sample.t1]) mount)
           Sample.c1 Sample.normal []).
  reflexivity.
Defined.

(** ** C8: a failing exchange under interleaving *)

(** C8 (the code departs from it, by the same positional resolution as in
    C1). In an open conversation the user asks a question and starts the
    analysis before the answer arrives; the question's request then fails.
    The error string, built as the claim says, is written on the analysis
    placeholder, the last message; the placeholder of the exchange that
    failed keeps showing the processing sentinel, with its request no
    longer in flight and [asking] cleared. *)
Theorem interleaved_failure_marks_last_message :
  let asked :=
    Sample.opened ++ [ ClickAsk 1000 Sample.t1; ClickAnalyze 1001 Sample.t2 ] in
  let failed := asked ++ [ Arrive 3 (Failed Sample.network_error) Sample.t3 ] in
  offered failed mount = true /\
  net (run asked mount) !! 3%nat = Some (PAsk (Some Sample.c1) 1000) /\
  thread (run asked mount)
  = [ (Sample.q, processing);
      (comprehensive_analysis, analyzing_document) ] /\
  thread (run failed mount)
  = [ (Sample.q, processing);
      (comprehensive_analysis, error_prefix ++ lit "Network Error") ] /\
  net (run failed mount) !! 3%nat = None /\
  asking (app (run failed mount)) = false.
Proof. vm_compute. repeat split. Qed.

(** ** C9: rename *)

(** C9. Saving a title that trims to the empty string sends nothing,
    leaves every conversation as it is and leaves edit mode.  Saving any
    other title sends one PUT carrying the trimmed title; whatever the
    reply, the list keeps its length and order, every conversation keeps
    its id, message count and update time, and a conversation with another
    id is untouched.  When the PUT succeeds, the title of each
    conversation with that id is the trimmed title and every other title
    is as before; when it fails, the list, titles included, is exactly as
    before. *)
Theorem rename_patches_title_in_place
  (w : World) (cid : Ident) (r : Reply) (iso : str) :
  let t := newTitle (side w) in
  let w1 := step (SaveTitle cid) w in
  let w2 := step (Arrive (next w) r iso) w1 in
  (Js.trim t = [] ->
   sent w1 = sent w /\ net w1 = net w /\
   conversations (side w1) = conversations (side w) /\
   editingId (side w1) = None) /\
  (Js.trim t <> [] ->
   sent w1 = sent w ++
     [ {| method := PUT; endpoint := EConversation cid;
          body := TitleBody (Js.trim t) |} ] /\
   conversations (side w1) = conversations (side w) /\
   conv_id <$> conversations (side w2) = conv_id <$> conversations (side w) /\
   conv_message_count <$> conversations (side w2)
   = conv_message_count <$> conversations (side w) /\
   conv_updated_at <$> conversations (side w2)
   = conv_updated_at <$> conversations (side w) /\
   (forall i c, conversations (side w) !! i = Some c -> conv_id c <> cid ->
                conversations (side w2) !! i = Some c) /\
   (forall d i c, r = Ok d ->
                  conversations (side w) !! i = Some c -> conv_id c = cid ->
                  conversations (side w2) !! i
                  = Some {| conv_id := cid; conv_title := Js.trim t;
                            conv_message_count := conv_message_count c;
                            conv_updated_at := conv_updated_at c |}) /\
   (forall d, r = Ok d ->
              conv_title <$> conversations (side w2)
              = (fun c => if decide (conv_id c = cid)
                          then Js.trim t else conv_title c)
                <$> conversations (side w)) /\
   (forall err, r = Failed err ->
                conversations (side w2) = conversations (side w))).
Proof.
  simpl. split.
  - intros Ht. unfold step, handle, handleTitleSave. rewrite Ht. simpl.
    by rewrite useEffect_same.
  - intros Ht. pose proof (truthy_trim _ Ht) as Htr.
    set (t := Js.trim (newTitle (side w))) in *.
    set (w1 := step (SaveTitle cid) w).
    assert (w1 = setNewTitle [] (updateConversationTitle cid t w)) as Hw1.
    { subst w1. unfold step, handle, handleTitleSave.
      fold t. rewrite Htr. by rewrite useEffect_same. }
    set (w2 := step (Arrive (next w) r iso) w1).
    assert (conversations (side w2)
            = match r with
              | Ok _ => (fun c => if decide (conv_id c = cid)
                                  then retitle t c else c)
                        <$> conversations (side w)
              | Failed _ => conversations (side w)
              end) as Hc.
    { subst w2. unfold step, handle. rewrite Hw1. simpl net.
      rewrite lookup_insert_eq. cbv beta iota. unfold resume.
      match goal with |- context [useEffect ?b ?x] =>
        destruct (useEffect_frame b x) as (-> & _) end.
      by destruct r. }
    rewrite Hc, Hw1. clear Hc. split; [done|]. split; [done|].
    destruct r as [d|e].
    + rewrite <- !list_fmap_compose.
      repeat split.
      * apply list_fmap_ext. intros i c _. simpl. by case_decide.
      * apply list_fmap_ext. intros i c _. simpl. by case_decide.
      * apply list_fmap_ext. intros i c _. simpl. by case_decide.
      * intros i c Hi Hne. rewrite list_lookup_fmap, Hi. simpl.
        by rewrite decide_False.
      * intros d' i c _ Hi He. rewrite list_lookup_fmap, Hi. simpl.
        rewrite decide_True by done. unfold retitle. by rewrite He.
      * intros d' _. apply list_fmap_ext. intros i c _. simpl.
        by case_decide.
      * intros err Herr. discriminate Herr.
    + repeat split; try done.
Qed.

Lemma rename_patches_title_in_place_witness :
  let w := run [ Arrive 0 (Ok (Stored.body [])) [];
                 ClickEdit Sample.c1 (lit "Lab Results") ] mount in
  let blank := step (ChangeNewTitle (lit "  ")) w in
  let typed := step (ChangeNewTitle (lit " Bloods ")) w in
  let saved := step (SaveTitle Sample.c1) typed in
  conv_title <$> conversations (side w) = [lit "Lab Results"; lit "Scan"] /\
  (sent (step (SaveTitle Sample.c1) blank) = sent blank /\
   net (step (SaveTitle Sample.c1) blank) = net blank /\
   conversations (side (step (SaveTitle Sample.c1) blank))
   = conversations (side blank) /\
   editingId (side (step (SaveTitle Sample.c1) blank)) = None) /\
  conv_title <$>
    conversations (side (step (Arrive (next typed) (Ok Sample.normal) []) saved))
  = [lit "Bloods"; lit "Scan"] /\
  conversations (side (step (Arrive (next typed) (Ok Sample.normal) []) saved))
    !! 0%nat
  = Some {| conv_id := Sample.c1; conv_title := lit "Bloods";
            conv_message_count := 0;
            conv_updated_at := lit "2024-01-01T09:00:00.000Z" |} /\
  conversations
    (side (step (Arrive (next typed) (Failed Sample.network_error) []) saved))
  = conversations (side typed).
Proof.
  intros w blank typed saved.
  split; [reflexivity|]. split; [|split; [|split]].
  - apply (proj1 (rename_patches_title_in_place
                    blank Sample.c1 (Ok Sample.normal) [])).
    reflexivity.
  - pose proof (proj2 (rename_patches_title_in_place
                         typed Sample.c1 (Ok Sample.normal) [])) as H.
    destruct H as (_ & _ & _ & _ & _ & _ & _ & H & _); [discriminate|].
    apply (H Sample.normal eq_refl).
  - pose proof (proj2 (rename_patches_title_in_place
                         typed Sample.c1 (Ok Sample.normal) [])) as H.
    destruct H as (_ & _ & _ & _ & _ & _ & H & _); [discriminate|].
    apply (H Sample.normal 0%nat Sample.lab_results); reflexivity.
  - pose proof (proj2 (rename_patches_title_in_place
                         typed Sample.c1 (Failed Sample.network_error) []))
      as H.
    destruct H as (_ & _ & _ & _ & _ & _ & _ & _ & H); [discriminate|].
    apply (H Sample.network_error eq_refl).
Defined.

(** ** C10: replies that are not acknowledged *)

(** C10. A 2xx reply whose [status] is not ['success'] changes nothing in
    the store, whether it answers the load of the conversation list, a
    create or the load of a conversation's messages, and sends nothing;
    for the last two no state cell of either component changes at all, so
    the creation modal and its title input keep their state. *)
Theorem unacknowledged_reply_leaves_store
  (w : World) (k : nat) (p : Pending) (d : Data) (iso : str) :
  net w !! k = Some p ->
  p ∈ [PLoadConversations; PCreate; PLoadMessages] ->
  data_status d <> success ->
  let w' := step (Arrive k (Ok d) iso) w in
  store w' = store w /\
  sent w' = sent w /\
  (p <> PLoadConversations -> app w' = app w /\ side w' = side w).
Proof.
  intros Hk Hp Hs. unfold step, handle. rewrite Hk. cbv beta iota.
  assert (p = PLoadConversations \/ p = PCreate \/ p = PLoadMessages)
    as [-> | [-> | ->]].
  { rewrite !elem_of_cons, elem_of_nil in Hp. tauto. }
  all: unfold resume, loadConversations_then, createNewConversation_then,
         loadConversationMessages_then.
  all: rewrite decide_False by done.
  all: by rewrite useEffect_same.
Qed.

Lemma unacknowledged_reply_leaves_store_witness :
  let w := run (Sample.opened ++ [OpenModal; ChangeNewTitle (lit "Scan");
                                  ClickCreate]) mount in
  let w' :=
    step (Arrive 3 (Ok (Sample.body (lit "error") [] [])) []) w in
  store w' = store w /\
  sent w' = sent w /\
  (PCreate <> PLoadConversations -> app w' = app w /\ side w' = side w).
Proof.
  apply (unacknowledged_reply_leaves_store
           (run (Sample.opened ++ [OpenModal; ChangeNewTitle (lit "Scan");
                                   ClickCreate]) mount)
           3%nat PCreate (Sample.body (lit "error") [] []) []).
  - reflexivity.
  - rewrite !elem_of_cons. tauto.
  - discriminate.
Defined.

(** ** The scenario of the specification *)

(** The conversation "Lab Results" is created, the question is submitted
    and shows with the processing placeholder while the backend is silent;
    the answer then leaves one message in the thread. *)
Example lab_results_scenario :
  let created :=
    Sample.uploaded ++
    [ OpenModal; ChangeNewTitle (lit "Lab Results"); ClickCreate;
      Arrive 2 (Ok Sample.normal) []; Arrive 3 (Ok Sample.normal) [];
      ChangeQuestion Sample.q; ClickAsk 1000 Sample.t1 ] in
  let answered := created ++ [ Arrive 4 (Ok Sample.normal) Sample.t2 ] in
  offered answered mount = true /\
  thread (run created mount) = [ (Sample.q, processing) ] /\
  conversationMessages (app (run answered mount))
  = [ {| msg_question := Sample.q; msg_answer := lit "Normal";
         msg_task_type := lit "translation"; msg_timestamp := Sample.t2 |} ].
Proof. vm_compute. repeat split. Qed.

(** * Further properties of the code *)

(** ** FinalApp: exchanges *)

Lemma handleAsk_then_frame a id r iso w :
  net (handleAsk_then a id r iso w) = net w /\
  sent (handleAsk_then a id r iso w) = sent w /\
  side (handleAsk_then a id r iso w) = side w.
Proof. unfold handleAsk_then. destruct r, (truthy a); done. Qed.

Lemma analysis_keeps_questions (w : World) (k : nat) (a : option Ident)
  (id : Z) (r : Reply) (iso : str) :
  net w !! k = Some (PAnalyze a id) ->
  fst <$> thread (step (Arrive k r iso) w) = fst <$> thread w.
Proof.
  intros Hk. unfold step, handle. rewrite Hk. cbv beta iota.
  unfold resume.
  rewrite useEffect_same by (by rewrite handleAnalyze_then_active).
  unfold thread. rewrite handleAnalyze_then_active. simpl.
  destruct (truthy (activeConversationId (app w))).
  - rewrite <- !list_fmap_compose.
    change (fst ∘ (fun m : Message => (msg_question m, msg_answer m)))
      with msg_question.
    unfold handleAnalyze_then.
    destruct r, (truthy a); simpl; try done; by apply map_last_questions.
  - rewrite <- !list_fmap_compose.
    change (fst ∘ (fun h : Entry => (ent_question h, ent_answer h)))
      with ent_question.
    unfold handleAnalyze_then.
    destruct r, (truthy a); simpl; try done; apply answer_entry_questions.
Qed.

(** X1. The reply of a question or of an analysis, whatever it is and
    whenever it arrives, leaves every question on display as it is and the
    thread as long as it was: a resolution only ever rewrites answers. *)
Theorem exchange_reply_keeps_questions (w : World) (k : nat)
  (a : option Ident) (id : Z) (r : Reply) (iso : str) :
  net w !! k = Some (PAsk a id) \/ net w !! k = Some (PAnalyze a id) ->
  let w' := step (Arrive k r iso) w in
  fst <$> thread w' = fst <$> thread w /\
  length (thread w') = length (thread w).
Proof.
  intros H. simpl.
  assert (fst <$> thread (step (Arrive k r iso) w) = fst <$> thread w) as E.
  { destruct H as [H | H];
      [by eapply resolution_keeps_questions
      | by eapply analysis_keeps_questions]. }
  split; [done|].
  by rewrite <- (length_fmap fst), E, length_fmap.
Qed.

Lemma exchange_reply_keeps_questions_witness :
  let w := run (Sample.opened ++
                  [ClickAsk 1000 Sample.t1; ClickAnalyze 1001 Sample.t2])
             mount in
  let w' := step (Arrive 4 (Failed Sample.network_error) Sample.t3) w in
  fst <$> thread w' = fst <$> thread w /\
  length (thread w') = length (thread w).
Proof.
  apply (exchange_reply_keeps_questions
           (run (Sample.opened ++
                   [ClickAsk 1000 Sample.t1; ClickAnalyze 1001 Sample.t2])
              mount)
           4%nat (Some Sample.c1) 1001).
  right. reflexivity.
Defined.

(** X2. Outside a conversation a reply is matched to its exchange by the
    entry id: when it arrives, each entry of the history that carries the
    id of the exchange gets the answer (or the error string) and every
    other entry is left exactly as it was, whatever was submitted in
    between. *)
Theorem unfiled_reply_answers_own_entry (w : World) (k : nat)
  (a : option Ident) (id : Z) (r : Reply) (iso : str) (i : nat) (h : Entry) :
  net w !! k = Some (PAsk a id) ->
  truthy a = false ->
  history (app w) !! i = Some h ->
  let w' := step (Arrive k r iso) w in
  let answer :=
    match r with
    | Ok d => data_answer d
    | Failed err => error_prefix ++ detail_or_message err
    end in
  length (history (app w')) = length (history (app w)) /\
  (ent_id h <> id -> history (app w') !! i = Some h) /\
  (ent_id h = id ->
   history (app w') !! i
   = Some {| ent_id := id; ent_question := ent_question h;
             ent_answer := answer |}).
Proof.
  intros Hk Ha Hi. simpl.
  rewrite (unfiled_resolution_by_id w k a id r iso Hk Ha).
  unfold answer_entry. rewrite length_fmap, list_lookup_fmap, Hi. simpl.
  split; [done|]. split; intros E.
  - by rewrite decide_False.
  - rewrite decide_True by done. by rewrite E.
Qed.

Lemma unfiled_reply_answers_own_entry_witness :
  let w := run (Sample.unfiled ++
                  [ClickAsk 1000 Sample.t1; ClickAnalyze 1001 Sample.t2])
             mount in
  let w' := step (Arrive 2 (Ok Sample.normal) Sample.t3) w in
  history (app w') !! 0%nat
  = Some {| ent_id := 1000; ent_question := Sample.q;
            ent_answer := lit "Normal" |} /\
  history (app w') !! 1%nat = history (app w) !! 1%nat.
Proof.
  intros w w'. split.
  - apply (unfiled_reply_answers_own_entry w 2%nat None 1000
             (Ok Sample.normal) Sample.t3 0%nat
             {| ent_id := 1000; ent_question := Sample.q;
                ent_answer := processing |});
      reflexivity.
  - apply (unfiled_reply_answers_own_entry w 2%nat None 1000
             (Ok Sample.normal) Sample.t3 1%nat
             {| ent_id := 1001; ent_question := comprehensive_analysis;
                ent_answer := analyzing_document |});
      try reflexivity.
    discriminate.
Defined.

(** ** FinalApp: what is sent *)

Lemma useEffect_sent b w :
  sent (useEffect b w) = sent w \/
  exists cid,
    activeConversationId (app w) = Some cid /\ Some cid <> b /\
    truthy_id cid = true /\
    sent (useEffect b w) = sent w ++
      [ {| method := GET; endpoint := EConversation cid; body := NoBody |} ].
Proof.
  unfold useEffect. case_decide as Hb; [by left|].
  destruct (activeConversationId (app w)) as [cid|] eqn:E; [|by left].
  destruct (truthy_id cid) eqn:Ht; [|by left].
  right. exists cid. done.
Qed.

Lemma useEffect_documentId b w :
  documentId (app (useEffect b w)) = documentId (app w).
Proof.
  unfold useEffect. case_decide; [done|].
  destruct (activeConversationId (app w)) as [cid|]; [|done].
  by destruct (truthy_id cid).
Qed.

Lemma resume_active_or_sent p r iso w :
  sent (resume p r iso w) = sent w.
Proof. by destruct (resume_net p r iso w) as (_ & _ & ->). Qed.

(** One event sends at most one request, and a well-formed one; a
    question request needs a document. *)
Lemma step_sent (e : Event) (w : World) :
  sent (step e w) = sent w \/
  exists r,
    sent (step e w) = sent w ++ [r] /\
    well_formed r = true /\
    (is_query r = true -> truthy (documentId (app w)) = true).
Proof.
  unfold step.
  destruct (useEffect_sent (activeConversationId (app w)) (handle e w))
    as [-> | (cid & Ha & Hne & Ht & ->)].
  - destruct e; simpl; try (by left).
    + unfold handleUpload. destruct (file (app w)); [|by left].
      right. eexists. split; [reflexivity|]. done.
    + unfold handleAsk.
      destruct (Js.truthy (question (app w))) eqn:Hq; [|by left].
      destruct (truthy (documentId (app w))) eqn:Hd; [|by left].
      right. eexists. split.
      { simpl. destruct (truthy (activeConversationId (app w))); reflexivity. }
      split; [|done]. unfold well_formed, query_endpoint. simpl.
      destruct (activeConversationId (app w)) as [c|]; simpl.
      * destruct (truthy_id c) eqn:Hc; simpl; rewrite ?Hc, ?Hq, ?Hd;
          reflexivity.
      * rewrite Hq, Hd. reflexivity.
    + unfold handleAnalyze.
      destruct (truthy (documentId (app w))) eqn:Hd; [|by left].
      right. eexists. split.
      { simpl. destruct (truthy (activeConversationId (app w))); reflexivity. }
      split; [|done]. unfold well_formed, query_endpoint. simpl.
      destruct (activeConversationId (app w)) as [c|]; simpl.
      * destruct (truthy_id c) eqn:Hc; simpl; rewrite ?Hc, ?Hd;
          reflexivity.
      * rewrite Hd. reflexivity.
    + unfold createNewConversation.
      destruct (Js.truthy (Js.trim (newTitle (side w)))); [|by left].
      right. eexists. split; [reflexivity|]. done.
    + unfold deleteConversation. destruct confirmed; [|by left].
      right. eexists. split; [reflexivity|]. done.
    + unfold handleTitleSave.
      destruct (Js.truthy (Js.trim (newTitle (side w)))); [|by left].
      right. eexists. split; [reflexivity|]. done.
    + destruct (net w !! k) as [p|]; [|by left].
      rewrite resume_active_or_sent. by left.
  - assert (sent (handle e w) = sent w) as ->.
    { destruct e; simpl in *; try done.
      - unfold handleUpload in *. destruct (file (app w)); [|done].
        simpl in *. congruence.
      - unfold handleAsk in *.
        destruct (negb (Js.truthy (question (app w)))
                  || negb (truthy (documentId (app w)))); [done|].
        exfalso. apply Hne. rewrite <- Ha. simpl.
        by destruct (truthy (activeConversationId (app w))).
      - unfold handleAnalyze in *.
        destruct (negb (truthy (documentId (app w)))); [done|].
        exfalso. apply Hne. rewrite <- Ha. simpl.
        by destruct (truthy (activeConversationId (app w))).
      - unfold createNewConversation in *.
        destruct (negb (Js.truthy (Js.trim (newTitle (side w))))); [done|].
        simpl in *. congruence.
      - unfold deleteConversation in *. destruct (negb confirmed); [done|].
        simpl in *. congruence.
      - unfold handleTitleSave in *.
        destruct (Js.truthy (Js.trim (newTitle (side w)))); [|done].
        simpl in *. congruence.
      - destruct (net w !! k) as [p|]; [|done].
        by rewrite resume_active_or_sent. }
    right. eexists. split; [reflexivity|].
    split; [by simpl | done].
Qed.

(** X3. Handling a reply never sends the request again, nor any other
    request of the handler's own: whatever the reply, the only request
    that can leave is the load of the messages of a conversation that the
    reply has just made active. *)
Theorem reply_never_resends (w : World) (k : nat) (r : Reply) (iso : str) :
  let w' := step (Arrive k r iso) w in
  sent w' = sent w \/
  exists cid,
    activeConversationId (app w') = Some cid /\
    activeConversationId (app w) <> Some cid /\
    truthy_id cid = true /\
    sent w' = sent w ++
      [ {| method := GET; endpoint := EConversation cid; body := NoBody |} ].
Proof.
  simpl. unfold step.
  assert (sent (handle (Arrive k r iso) w) = sent w) as Hs.
  { simpl. destruct (net w !! k) as [p|]; [|done].
    by rewrite resume_active_or_sent. }
  destruct (useEffect_sent (activeConversationId (app w))
              (handle (Arrive k r iso) w))
    as [-> | (cid & Ha & Hne & Ht & ->)]; [by left|].
  right. exists cid.
  destruct (useEffect_frame (activeConversationId (app w))
              (handle (Arrive k r iso) w)) as (_ & -> & _).
  rewrite Hs. repeat split; try done.
Qed.

(** X4. Along every run from the first render, every request sent is well
    formed: a question request is a POST with a non-empty question, a
    usable document id and the type ["general"], a conversation-scoped
    question or a message load names a conversation whose id is truthy. *)
Theorem requests_are_well_formed (es : list Event) :
  Forall (fun r => well_formed r = true) (sent (run es mount)).
Proof.
  induction es as [|e es IH] using rev_ind.
  - simpl. by repeat constructor.
  - rewrite run_snoc.
    destruct (step_sent e (run es mount)) as [-> | (r & -> & Hr & _)];
      [done|].
    apply Forall_app. split; [done|]. by repeat constructor.
Qed.

Lemma step_documentId (e : Event) (w : World) :
  documentId (app (step e w)) = documentId (app w) \/
  exists k d iso,
    e = Arrive k (Ok d) iso /\
    documentId (app (step e w)) = data_document_id d.
Proof.
  unfold step. rewrite useEffect_documentId.
  destruct e; simpl; try (by left).
  - unfold handleUpload. by destruct (file (app w)); left.
  - unfold handleAsk.
    destruct (negb (Js.truthy (question (app w)))
              || negb (truthy (documentId (app w)))); [by left|].
    left. simpl. by destruct (truthy (activeConversationId (app w))).
  - unfold handleAnalyze.
    destruct (negb (truthy (documentId (app w)))); [by left|].
    left. simpl. by destruct (truthy (activeConversationId (app w))).
  - unfold createNewConversation.
    by destruct (negb (Js.truthy (Js.trim (newTitle (side w))))); left.
  - unfold deleteConversation. by destruct (negb confirmed); left.
  - unfold handleTitleSave.
    by destruct (Js.truthy (Js.trim (newTitle (side w)))); left.
  - destruct (net w !! k) as [p|]; [|by left].
    destruct p; simpl;
      unfold loadConversations_then, createNewConversation_then,
        deleteConversation_then, updateConversationTitle_then,
        loadConversationMessages_then, handleUpload_then, handleAsk_then,
        handleAnalyze_then;
      destruct r as [d|err]; simpl;
      repeat case_decide; repeat case_match; simpl; try (by left).
    right. eauto.
Qed.

(** X5. Until an upload has been answered with a usable document id no
    question and no analysis is ever sent: along every run from the first
    render in which no reply carries such an id, the document id stays
    falsy and no request to a question endpoint has left. *)
Theorem no_question_before_upload (es : list Event) :
  Forall (fun e => delivers_document e = false) es ->
  truthy (documentId (app (run es mount))) = false /\
  Forall (fun r => is_query r = false) (sent (run es mount)).
Proof.
  induction es as [|e es IH] using rev_ind; intros Hes.
  - simpl. split; [done|]. by repeat constructor.
  - apply Forall_app in Hes as [Hes He]. apply Forall_inv in He.
    destruct (IH Hes) as [Hd Hq]. rewrite run_snoc. split.
    + destruct (step_documentId e (run es mount))
        as [-> | (k & d & iso & -> & ->)]; [done|].
      exact He.
    + destruct (step_sent e (run es mount)) as [-> | (r & -> & _ & Hr)];
        [done|].
      apply Forall_app. split; [done|]. repeat constructor.
      destruct (is_query r); [|done]. rewrite Hr in Hd; done.
Qed.

Lemma no_question_before_upload_witness :
  let es := [ Arrive 0 (Ok {| data_status := success;
                            data_conversations := [Sample.lab_results];
                            data_conversation := Sample.lab_results;
                            data_messages := []; data_answer := [];
                            data_task_type := [];
                            data_document_id := None |}) [];
              ChangeFile (lit "results.pdf"); ClickUpload;
              Arrive 1 (Failed Sample.network_error) [];
              ChangeQuestion Sample.q; ClickAsk 1000 Sample.t1;
              ClickAnalyze 1001 Sample.t2 ] in
  truthy (documentId (app (run es mount))) = false /\
  Forall (fun r => is_query r = false) (sent (run es mount)).
Proof.
  apply (no_question_before_upload
           [ Arrive 0 (Ok {| data_status := success;
                            data_conversations := [Sample.lab_results];
                            data_conversation := Sample.lab_results;
                            data_messages := []; data_answer := [];
                            data_task_type := [];
                            data_document_id := None |}) [];
             ChangeFile (lit "results.pdf"); ClickUpload;
             Arrive 1 (Failed Sample.network_error) [];
             ChangeQuestion Sample.q; ClickAsk 1000 Sample.t1;
             ClickAnalyze 1001 Sample.t2 ]).
  repeat constructor.
Defined.

(** ** FinalApp: upload *)

(** X6. Pressing upload without a file does nothing.  With a file it
    posts the file and raises [uploading]; the reply lowers it again
    whatever it is, a 2xx reply installs the document id of its body (even
    a missing one) and a failure leaves the document id as it was; the
    conversation list, the selection, the threads and the composer are not
    touched. *)
Theorem upload_installs_document_id
  (w : World) (r : Reply) (iso : str) :
  (file (app w) = None -> step ClickUpload w = w) /\
  (forall name, file (app w) = Some name ->
   let w1 := step ClickUpload w in
   let w2 := step (Arrive (next w) r iso) w1 in
   sent w1 = sent w ++
     [ {| method := POST; endpoint := EUpload; body := FileBody name |} ] /\
   uploading (app w1) = true /\
   uploading (app w2) = false /\
   documentId (app w2)
   = match r with
     | Ok d => data_document_id d
     | Failed _ => documentId (app w)
     end /\
   sent w2 = sent w1 /\
   store w2 = store w /\
   history (app w2) = history (app w) /\
   question (app w2) = question (app w)).
Proof.
  split.
  - intros Hf. unfold step, handle, handleUpload. rewrite Hf.
    by apply useEffect_same.
  - intros name Hf. simpl.
    assert (step ClickUpload w
            = issue PUpload
                {| method := POST; endpoint := EUpload;
                   body := FileBody name |}
                (setUploading true w)) as ->.
    { unfold step, handle, handleUpload. rewrite Hf.
      by apply useEffect_same. }
    split; [done|]. split; [done|].
    unfold step, handle. simpl net. rewrite lookup_insert_eq.
    cbv beta iota. unfold resume.
    rewrite useEffect_same by (by destruct r).
    by destruct r.
Qed.

Lemma upload_installs_document_id_witness :
  let w := run [ Arrive 0 (Ok Sample.normal) [];
                 ChangeFile (lit "results.pdf") ] mount in
  step ClickUpload mount = mount /\
  documentId (app (step (Arrive (next w) (Ok Sample.normal) [])
                     (step ClickUpload w)))
  = Some Sample.doc /\
  documentId (app (step (Arrive (next w) (Failed Sample.network_error) [])
                     (step ClickUpload w)))
  = Some (IdStr []).
Proof.
  intros w. split; [|split].
  - apply (proj1 (upload_installs_document_id mount (Ok Sample.normal) [])).
    reflexivity.
  - pose proof (proj2 (upload_installs_document_id w (Ok Sample.normal) [])
                  (lit "results.pdf")) as H.
    apply H. reflexivity.
  - pose proof (proj2 (upload_installs_document_id w
                         (Failed Sample.network_error) [])
                  (lit "results.pdf")) as H.
    apply H. reflexivity.
Defined.

(** ** ConversationSidebar: the list *)

(** X7. The reply to the load of the conversation list always ends the
    loading state and touches nothing of the application besides the
    list: an acknowledged reply replaces the list wholesale with the one
    returned, dropping whatever it held, and any other reply leaves it as
    it is. *)
Theorem list_load_replaces_wholesale
  (w : World) (k : nat) (r : Reply) (iso : str) :
  net w !! k = Some PLoadConversations ->
  let w' := step (Arrive k r iso) w in
  loading (side w') = false /\
  conversations (side w')
  = match r with
    | Ok d => if acknowledged r then data_conversations d
              else conversations (side w)
    | Failed _ => conversations (side w)
    end /\
  app w' = app w /\
  sent w' = sent w /\
  showModal (side w') = showModal (side w) /\
  editingId (side w') = editingId (side w) /\
  newTitle (side w') = newTitle (side w).
Proof.
  intros Hk. simpl. unfold step, handle. rewrite Hk. cbv beta iota.
  unfold resume, loadConversations_then.
  destruct r as [d|err]; simpl.
  - destruct (decide (data_status d = success)) as [Hs|Hs].
    + rewrite bool_decide_eq_true_2 by done. by rewrite useEffect_same.
    + rewrite bool_decide_eq_false_2 by done. by rewrite useEffect_same.
  - by rewrite useEffect_same.
Qed.

Lemma list_load_replaces_wholesale_witness :
  let w := creates [ (lit "Scan", Ok Sample.summary) ] mount in
  let w' := step (Arrive 0 (Ok Sample.normal) []) w in
  loading (side w') = false /\
  conversations (side w') = [Sample.lab_results] /\
  app w' = app w.
Proof.
  intros w w'.
  pose proof (list_load_replaces_wholesale w 0%nat (Ok Sample.normal) [])
    as H.
  destruct H as (H1 & H2 & H3 & _); [reflexivity|].
  split; [exact H1|]. split; [exact H2 | exact H3].
Defined.

(** X8. A failed DELETE changes nothing.  A successful one removes the
    conversations with that id and keeps the others in order; if the
    conversation was not the active one when delete was pressed, nothing
    of the application changes; if it was, the selection is cleared and
    the unfiled history emptied even when the user has opened another
    conversation in the meantime, and the messages on display are emptied
    with it.  No request follows. *)
Theorem delete_reply_effects
  (w : World) (k : nat) (cid : Ident) (a : option Ident)
  (r : Reply) (iso : str) :
  net w !! k = Some (PDelete cid a) ->
  let w' := step (Arrive k r iso) w in
  sent w' = sent w /\
  (forall err, r = Failed err -> app w' = app w /\ side w' = side w) /\
  (forall d, r = Ok d ->
   conversations (side w')
   = filter (fun c => conv_id c <> cid) (conversations (side w)) /\
   (a <> Some cid -> app w' = app w) /\
   (a = Some cid ->
    activeConversationId (app w') = None /\
    history (app w') = [] /\
    (activeConversationId (app w) <> None ->
     conversationMessages (app w') = []))).
Proof.
  intros Hk. simpl. unfold step, handle. rewrite Hk. cbv beta iota.
  unfold resume, deleteConversation_then.
  destruct r as [d|err].
  - destruct (decide (a = Some cid)) as [Ha|Ha].
    + unfold useEffect. simpl.
      destruct (activeConversationId (app w)) as [c|] eqn:Hc.
      * rewrite decide_False by done. simpl.
        split; [done|]. split; [done|]. intros d' _.
        split; [done|]. split; [done|]. done.
      * rewrite decide_True by done. simpl.
        split; [done|]. split; [done|]. intros d' _.
        split; [done|]. split; [done|]. intros _. split; [done|].
        split; [done|]. done.
    + rewrite useEffect_same by done. simpl.
      split; [done|]. split; [done|]. intros d' _.
      split; [done|]. split; [done|]. done.
  - rewrite useEffect_same by done. simpl.
    split; [done|]. split; [done|]. done.
Qed.

Lemma delete_reply_effects_witness :
  let w := run (Sample.opened ++ [ClickDelete Sample.c1 true]) mount in
  let w' := step (Arrive 3 (Ok Sample.normal) []) w in
  sent w' = sent w /\
  conversations (side w') = [] /\
  activeConversationId (app w') = None.
Proof.
  intros w w'.
  pose proof (delete_reply_effects w 3%nat Sample.c1 (Some Sample.c1)
                (Ok Sample.normal) []) as H.
  destruct H as (H1 & _ & H2); [reflexivity|].
  destruct (H2 Sample.normal eq_refl) as (H3 & _ & H4).
  destruct (H4 eq_refl) as (H5 & _).
  split; [exact H1|]. split; [exact H3 | exact H5].
Defined.

(** X9. An acknowledged create, whenever its reply arrives, closes the
    modal, empties the title input, discards the unfiled history and
    shows an empty thread; the composer and the document stay as they
    are; and when the new conversation has a truthy id that is not the
    active one already, the load of its messages is the one request
    sent. *)
Theorem acknowledged_create_resets_view
  (w : World) (k : nat) (d : Data) (iso : str) :
  net w !! k = Some PCreate ->
  data_status d = success ->
  let w' := step (Arrive k (Ok d) iso) w in
  let cid := conv_id (data_conversation d) in
  showModal (side w') = false /\
  newTitle (side w') = [] /\
  history (app w') = [] /\
  conversationMessages (app w') = [] /\
  question (app w') = question (app w) /\
  documentId (app w') = documentId (app w) /\
  (truthy_id cid = true -> activeConversationId (app w) <> Some cid ->
   sent w' = sent w ++
     [ {| method := GET; endpoint := EConversation cid; body := NoBody |} ] /\
   net w' !! next w = Some PLoadMessages) /\
  (truthy_id cid = false \/ activeConversationId (app w) = Some cid ->
   sent w' = sent w).
Proof.
  intros Hk Hs. simpl. unfold step, handle. rewrite Hk. cbv beta iota.
  unfold resume, createNewConversation_then. rewrite decide_True by done.
  cbv zeta. unfold useEffect. simpl.
  destruct (decide (Some (conv_id (data_conversation d))
                    = activeConversationId (app w))) as [E|E].
  - repeat split; try done.
  - destruct (truthy_id (conv_id (data_conversation d))) eqn:Ht; simpl.
    + repeat split; try done.
      all: try apply lookup_insert_eq.
      all: try (intros [? | ?]; [done | congruence]).
    + repeat split; try done.
Qed.

Lemma acknowledged_create_resets_view_witness :
  let w := run (Sample.unfiled ++
                  [ClickAsk 1000 Sample.t1; OpenModal;
                   ChangeNewTitle (lit "Lab Results"); ClickCreate]) mount in
  let w' := step (Arrive 3 (Ok Sample.normal) []) w in
  history (app w) <> [] /\
  history (app w') = [] /\
  showModal (side w') = false /\
  sent w' = sent w ++
    [ {| method := GET; endpoint := EConversation Sample.c1;
         body := NoBody |} ].
Proof.
  intros w w'.
  pose proof (acknowledged_create_resets_view w 3%nat Sample.normal [])
    as H.
  destruct H as (H1 & _ & H3 & _ & _ & _ & H7 & _);
    [reflexivity | reflexivity |].
  split; [vm_compute; discriminate|]. split; [exact H3|]. split; [exact H1|].
  apply H7; [reflexivity | vm_compute; discriminate].
Defined.

(** ** ConversationSidebar: editing a title *)

Lemma retitle_same (c : Conversation) : retitle (conv_title c) c = c.
Proof. by destruct c. Qed.

(** X10. Editing a title and leaving with Escape sends nothing and leaves
    the list as it was; a key other than Enter and Escape changes nothing
    at all.  Editing and pressing Enter without having typed sends the PUT
    all the same, with the trimmed title, and once it succeeds the list is
    exactly what it was, provided the title had no surrounding white space
    and the conversations sharing the id (if any) share that title. *)
Theorem edit_round_trips
  (w : World) (c : Conversation) (key : str) (d : Data) (iso : str) :
  let cid := conv_id c in
  let w1 := handleTitleEdit cid (conv_title c) w in
  (let w2 := handleKeyPress (lit "Escape") cid w1 in
   sent w2 = sent w /\ net w2 = net w /\ app w2 = app w /\
   conversations (side w2) = conversations (side w) /\
   editingId (side w2) = None /\ newTitle (side w2) = []) /\
  (key <> lit "Enter" -> key <> lit "Escape" ->
   handleKeyPress key cid w1 = w1) /\
  (Js.trim (conv_title c) = conv_title c ->
   conv_title c <> [] ->
   (forall c', c' ∈ conversations (side w) -> conv_id c' = cid ->
               conv_title c' = conv_title c) ->
   let w2 := handleKeyPress (lit "Enter") cid w1 in
   let w3 := step (Arrive (next w) (Ok d) iso) w2 in
   sent w2 = sent w ++
     [ {| method := PUT; endpoint := EConversation cid;
          body := TitleBody (conv_title c) |} ] /\
   conversations (side w3) = conversations (side w) /\
   editingId (side w3) = None /\
   newTitle (side w3) = []).
Proof.
  simpl. split; [|split].
  - done.
  - intros H1 H2. unfold handleKeyPress. by rewrite !decide_False.
  - intros Ht Hne Hsame.
    assert (Js.truthy (conv_title c) = true) as Htr
      by (by destruct (conv_title c)).
    set (w1 := handleTitleEdit (conv_id c) (conv_title c) w).
    assert (handleKeyPress (lit "Enter") (conv_id c) w1
            = setNewTitle []
                (updateConversationTitle (conv_id c) (conv_title c) w1))
      as ->.
    { unfold handleKeyPress. rewrite decide_True by done.
      unfold handleTitleSave. subst w1. simpl. by rewrite Ht, Htr. }
    split; [by rewrite Ht, Htr|].
    set (w3 := step _ _).
    assert (side w3
            = side (updateConversationTitle_then (conv_id c) (conv_title c)
                      (Ok d)
                      (settle (next w)
                         (setNewTitle []
                            (updateConversationTitle (conv_id c)
                               (conv_title c) w1))))) as ->.
    { subst w3. unfold step, handle. simpl net. rewrite lookup_insert_eq.
      cbv beta iota. unfold resume.
      match goal with |- context [useEffect ?b ?x] =>
        destruct (useEffect_frame b x) as (-> & _) end.
      done. }
    simpl. split; [|done].
    rewrite <- (list_fmap_id (conversations (side w))) at 2.
    apply list_fmap_ext. intros i c' Hi. simpl.
    case_decide as E; [|done].
    rewrite <- (Hsame c'); [apply retitle_same | | done].
    apply list_elem_of_lookup. eauto.
Qed.

Lemma edit_round_trips_witness :
  let w := run [ Arrive 0 (Ok Sample.normal) [] ] mount in
  let c := Sample.lab_results in
  let w1 := handleTitleEdit (conv_id c) (conv_title c) w in
  handleKeyPress (lit "a") (conv_id c) w1 = w1 /\
  conversations
    (side (step (Arrive (next w) (Ok Sample.normal) [])
             (handleKeyPress (lit "Enter") (conv_id c) w1)))
  = conversations (side w).
Proof.
  intros w c w1.
  pose proof (edit_round_trips w c (lit "a") Sample.normal []) as (_ & H2 & H3).
  split.
  - apply H2; discriminate.
  - apply H3; [reflexivity | discriminate |].
    intros c' Hc' _. apply list_elem_of_singleton in Hc'. by subst c'.
Defined.

(** ** ConversationSidebar: dates *)

Lemma ceil_days_spec (d k : Z) :
  0 <= d -> ceil_days d = k <-> (k - 1) * day_ms < d <= k * day_ms.
Proof.
  intros Hd. unfold ceil_days, day_ms.
  change (1000 * 60 * 60 * 24) with 86400000.
  pose proof (Z.div_mod (d + (86400000 - 1)) 86400000 ltac:(lia)) as E.
  pose proof (Z.mod_pos_bound (d + (86400000 - 1)) 86400000 ltac:(lia)) as B.
  split; intros H; lia.
Qed.

(** X11. The date label depends only on how far the date is from now, in
    either direction, counted in started days: within one day it is
    ["Today"], within two ["Yesterday"], within [n + 1] days for [n] from
    2 to 6 it is ["n days ago"], beyond seven days it is the locale's
    date; a date in the future gets the label of the date as far in the
    past; and a date equal to now to the millisecond is labelled
    ["-1 days ago"]. *)
Theorem formatDate_labels (toLocaleDateString : Z -> str) (now date n x : Z) :
  let d := Z.abs (now - date) in
  (d = 0 -> formatDate toLocaleDateString now date = lit "-1 days ago") /\
  (0 < d <= day_ms ->
   formatDate toLocaleDateString now date = lit "Today") /\
  (day_ms < d <= 2 * day_ms ->
   formatDate toLocaleDateString now date = lit "Yesterday") /\
  (2 <= n <= 6 -> n * day_ms < d <= (n + 1) * day_ms ->
   formatDate toLocaleDateString now date = decimal n ++ lit " days ago") /\
  (7 * day_ms < d ->
   formatDate toLocaleDateString now date = toLocaleDateString date) /\
  (Z.abs x <= 7 * day_ms ->
   formatDate toLocaleDateString now (now + x)
   = formatDate toLocaleDateString now (now - x)).
Proof.
  simpl. unfold formatDate.
  pose proof (Z.abs_nonneg (now - date)) as Hd.
  split; [|split; [|split; [|split; [|split]]]].
  - intros ->. reflexivity.
  - intros H. apply (ceil_days_spec _ 1) in H; [|done]. by rewrite H.
  - intros H. apply (ceil_days_spec _ 2) in H; [|done]. by rewrite H.
  - intros Hn H.
    assert (ceil_days (Z.abs (now - date)) = n + 1) as ->.
    { apply ceil_days_spec; [done|]. unfold day_ms in *. lia. }
    destruct (n + 1 =? 1) eqn:E1; [lia|].
    destruct (n + 1 =? 2) eqn:E2; [lia|].
    destruct (n + 1 <=? 7) eqn:E3; [|lia].
    do 3 f_equal. lia.
  - intros H.
    destruct (ceil_days (Z.abs (now - date)) =? 1) eqn:E1.
    { apply Z.eqb_eq, ceil_days_spec in E1; [|done]. unfold day_ms in *. lia. }
    destruct (ceil_days (Z.abs (now - date)) =? 2) eqn:E2.
    { apply Z.eqb_eq, ceil_days_spec in E2; [|done]. unfold day_ms in *. lia. }
    destruct (ceil_days (Z.abs (now - date)) <=? 7) eqn:E3; [|done].
    apply Z.leb_le in E3.
    pose proof (proj1 (ceil_days_spec (Z.abs (now - date)) _ Hd) eq_refl).
    unfold day_ms in *. nia.
  - intros Hx.
    replace (now - (now + x)) with (- x) by lia.
    replace (now - (now - x)) with x by lia.
    rewrite Z.abs_opp.
    destruct (ceil_days (Z.abs x) =? 1); [done|].
    destruct (ceil_days (Z.abs x) =? 2); [done|].
    destruct (ceil_days (Z.abs x) <=? 7) eqn:E3; [done|].
    apply Z.leb_gt in E3.
    pose proof (proj1 (ceil_days_spec (Z.abs x) _ (Z.abs_nonneg x)) eq_refl).
    unfold day_ms in *. nia.
Qed.

Lemma formatDate_labels_witness :
  let loc := fun _ : Z => lit "1/2/2024" in
  let now := 1704189600000 in
  formatDate loc now now = lit "-1 days ago" /\
  formatDate loc now (now - 1) = lit "Today" /\
  formatDate loc now (now + day_ms + 1) = lit "Yesterday" /\
  formatDate loc now (now - 3 * day_ms) = lit "2 days ago" /\
  formatDate loc now (now - 7 * day_ms - 1) = lit "1/2/2024" /\
  formatDate loc now (now + 5 * day_ms) = formatDate loc now (now - 5 * day_ms).
Proof.
  intros loc now.
  split; [|split; [|split; [|split; [|split]]]].
  - pose proof (formatDate_labels loc now now 2 0) as (H & _).
    apply H. reflexivity.
  - pose proof (formatDate_labels loc now (now - 1) 2 0) as (_ & H & _).
    apply H. vm_compute. split; [reflexivity | discriminate].
  - pose proof (formatDate_labels loc now (now + day_ms + 1) 2 0)
      as (_ & _ & H & _).
    apply H. vm_compute. split; [reflexivity | discriminate].
  - pose proof (formatDate_labels loc now (now - 3 * day_ms) 2 0)
      as (_ & _ & _ & H & _).
    apply H.
    + lia.
    + vm_compute. split; [reflexivity | discriminate].
  - pose proof (formatDate_labels loc now (now - 7 * day_ms - 1) 2 0)
      as (_ & _ & _ & _ & H & _).
    apply H. vm_compute. reflexivity.
  - pose proof (formatDate_labels loc now now 2 (5 * day_ms))
      as (_ & _ & _ & _ & _ & H).
    apply H. vm_compute. discriminate.
Defined.

(** ** History App: sidebar labels *)

(** X12. The sidebar label of a question is the question itself when it
    has at most 20 code units, and otherwise its first 20 code units
    followed by three dots: it never exceeds 23 code units, always starts
    with the first 20 code units of the question, and two questions get
    the same label only if they agree on their first 20 code units. *)
Theorem history_label_truncates (question other : str) :
  (length question <= 20 -> history_label question = question)%nat /\
  (20 < length question ->
   history_label question = take 20 question ++ lit "..." /\
   length (history_label question) = 23)%nat /\
  (length (history_label question) <= 23)%nat /\
  take 20 (history_label question) = take 20 question /\
  (history_label question = history_label other ->
   take 20 question = take 20 other).
Proof.
  assert (forall q : str, take 20 (history_label q) = take 20 q) as Htake.
  { intros q. unfold history_label.
    destruct (20 <? length q)%nat eqn:E; [|done].
    apply Nat.ltb_lt in E.
    rewrite take_app_le by (rewrite length_take; lia).
    rewrite take_take. by rewrite Nat.min_id. }
  assert (forall q : str, (20 < length q)%nat ->
            length (take 20 q ++ lit "...") = 23%nat) as Hlong.
  { intros q E. rewrite length_app, length_take, Nat.min_l by lia.
    reflexivity. }
  split; [|split; [|split; [|split]]].
  - intros H. unfold history_label.
    by rewrite (proj2 (Nat.ltb_ge _ _)) by lia.
  - intros H. unfold history_label.
    rewrite (proj2 (Nat.ltb_lt _ _)) by lia. split; [done | by apply Hlong].
  - unfold history_label. destruct (20 <? length question)%nat eqn:E.
    + apply Nat.ltb_lt in E. rewrite Hlong by done. lia.
    + apply Nat.ltb_ge in E. lia.
  - apply Htake.
  - intros H. rewrite <- (Htake question), <- (Htake other). by rewrite H.
Qed.

Lemma history_label_truncates_witness :
  history_label (lit "What are my results?") = lit "What are my results?" /\
  history_label (lit "What are my results today?")
  = lit "What are my results ..." /\
  length (history_label (lit "What are my results today?")) = 23%nat.
Proof.
  pose proof (history_label_truncates (lit "What are my results?") [])
    as (H1 & _).
  pose proof (history_label_truncates (lit "What are my results today?") [])
    as (_ & H2 & _).
  split; [|split].
  - apply H1. vm_compute. lia.
  - apply H2. vm_compute. lia.
  - apply H2. vm_compute. lia.
Defined.

(** ** SimpleApp *)

Lemma transcript_snoc (pairs : list (str * str)) (q a : str) :
  SimpleApp.transcript (pairs ++ [(q, a)])
  = SimpleApp.transcript pairs ++
    [ {| SimpleApp.type := SimpleApp.user; SimpleApp.content := q |};
      {| SimpleApp.type := SimpleApp.assistant; SimpleApp.content := a |} ].
Proof.
  unfold SimpleApp.transcript. rewrite bind_app. reflexivity.
Qed.

Lemma SimpleApp_step_invariant (e : SimpleApp.Event) (s : SimpleApp.State) :
  SimpleApp_invariant s -> SimpleApp_invariant (SimpleApp.step e s).
Proof.
  intros [(pairs & Hc & Hp) Hn].
  assert (forall x : SimpleApp.Request,
            Forall (fun qa => fst qa <> [] /\
                      SimpleApp.AskRequest (fst qa) ∈ SimpleApp.sent s ++ [x])
              pairs) as Hp'.
  { intros x. eapply Forall_impl; [exact Hp|].
    intros qa [? ?]. split; [done|]. apply elem_of_app. by left. }
  destruct e as [f | | q | | k r]; simpl.
  - split; [by exists pairs | done].
  - unfold SimpleApp.handleFileUpload.
    destruct (SimpleApp.file s) as [f|]; [|split; [by exists pairs | done]].
    split; [exists pairs; split; [done | apply Hp']|].
    intros k q. simpl. rewrite lookup_insert. case_decide as Hk; [done|].
    intros Hl. destruct (Hn k q Hl). split; [done|].
    apply elem_of_app. by left.
  - split; [by exists pairs | done].
  - unfold SimpleApp.handleAsk.
    destruct (Js.truthy (SimpleApp.query s)) eqn:Hq;
      [|split; [by exists pairs | done]].
    split; [exists pairs; split; [done | apply Hp']|].
    intros k q. simpl. rewrite lookup_insert. case_decide as Hk.
    + intros [= <-]. split.
      * by destruct (SimpleApp.query s).
      * apply elem_of_app. right. by apply list_elem_of_singleton.
    + intros Hl. destruct (Hn k q Hl). split; [done|].
      apply elem_of_app. by left.
  - destruct (SimpleApp.net s !! k) as [p|] eqn:Hk;
      [|split; [by exists pairs | done]].
    assert (forall k' q,
              delete k (SimpleApp.net s) !! k' = Some (SimpleApp.PAsk q) ->
              q <> [] /\ SimpleApp.AskRequest q ∈ SimpleApp.sent s) as Hn'.
    { intros k' q. rewrite lookup_delete. case_decide; [done | apply Hn]. }
    destruct p as [|q].
    + split; [by exists pairs | done].
    + destruct (Hn k q Hk) as [Hq Hs].
      destruct r as [a|]; simpl.
      * split; [|done]. exists (pairs ++ [(q, a)]).
        split; [by rewrite transcript_snoc, Hc|].
        apply Forall_app. split; [done|]. by repeat constructor.
      * split; [by exists pairs | done].
Qed.

(** X13. Whatever the user does and however the replies arrive, the chat
    history is a sequence of pairs, a user message followed by the
    assistant's answer to it; no user message is empty, and each one is a
    query that was posted. *)
Theorem chat_history_is_a_transcript (es : list SimpleApp.Event) :
  let s := SimpleApp.run es SimpleApp.init in
  exists pairs,
    SimpleApp.chatHistory s = SimpleApp.transcript pairs /\
    length (SimpleApp.chatHistory s) = (2 * length pairs)%nat /\
    Forall (fun qa => fst qa <> [] /\
                      SimpleApp.AskRequest (fst qa) ∈ SimpleApp.sent s)
      pairs.
Proof.
  simpl.
  assert (SimpleApp_invariant (SimpleApp.run es SimpleApp.init))
    as [(pairs & Hc & Hp) _].
  { assert (SimpleApp_invariant SimpleApp.init) as H0.
    { split; [by exists [] |]. intros k q H. simpl in H.
      by rewrite lookup_empty in H. }
    revert H0. generalize SimpleApp.init.
    induction es as [|e es IH]; intros s Hs; simpl; [done|].
    apply IH. by apply SimpleApp_step_invariant. }
  exists pairs. split; [done|]. split; [|done].
  rewrite Hc. clear. induction pairs as [|qa pairs IH]; simpl; [done|].
  unfold SimpleApp.transcript in *. simpl. rewrite IH. lia.
Qed.

(** X14. A query is recorded as it was when it was asked.  If the user
    goes on typing while the request is in flight, a successful answer
    appends the pair made of the query asked and the answer, shows the
    answer and empties the box, dropping what was typed meanwhile; a
    failure leaves the chat history and the box as they are and shows
    the fixed error text.  Either way the loading flag is lowered, the
    request is settled and nothing is sent again. *)
Theorem ask_records_query_as_asked
  (s : SimpleApp.State) (typed : str) (r : SimpleApp.Reply) :
  Js.truthy (SimpleApp.query s) = true ->
  let s1 := SimpleApp.step SimpleApp.Ask s in
  let s2 := SimpleApp.step (SimpleApp.ChangeQuery typed) s1 in
  let s3 := SimpleApp.step (SimpleApp.Arrive (SimpleApp.next s) r) s2 in
  SimpleApp.sent s1
  = SimpleApp.sent s ++ [SimpleApp.AskRequest (SimpleApp.query s)] /\
  SimpleApp.isLoading s1 = true /\
  SimpleApp.isLoading s3 = false /\
  SimpleApp.sent s3 = SimpleApp.sent s1 /\
  SimpleApp.net s3 !! SimpleApp.next s = None /\
  match r with
  | SimpleApp.Ok a =>
      SimpleApp.chatHistory s3
      = SimpleApp.chatHistory s ++
        [ {| SimpleApp.type := SimpleApp.user;
             SimpleApp.content := SimpleApp.query s |};
          {| SimpleApp.type := SimpleApp.assistant;
             SimpleApp.content := a |} ] /\
      SimpleApp.response s3 = a /\
      SimpleApp.query s3 = []
  | SimpleApp.Failed =>
      SimpleApp.chatHistory s3 = SimpleApp.chatHistory s /\
      SimpleApp.response s3 = lit "Error processing query" /\
      SimpleApp.query s3 = typed
  end.
Proof.
  intros Hq. simpl. unfold SimpleApp.handleAsk. rewrite Hq. simpl.
  rewrite lookup_insert_eq.
  destruct r as [a|]; simpl; repeat split; try done; apply lookup_delete_eq.
Qed.

Lemma ask_records_query_as_asked_witness :
  let s := SimpleApp.run [SimpleApp.ChangeQuery Sample.q] SimpleApp.init in
  let s3 :=
    SimpleApp.step (SimpleApp.Arrive 0 (SimpleApp.Ok (lit "Normal")))
      (SimpleApp.step (SimpleApp.ChangeQuery (lit "And my"))
         (SimpleApp.step SimpleApp.Ask s)) in
  SimpleApp.chatHistory s3
  = [ {| SimpleApp.type := SimpleApp.user; SimpleApp.content := Sample.q |};
      {| SimpleApp.type := SimpleApp.assistant;
         SimpleApp.content := lit "Normal" |} ] /\
  SimpleApp.query s3 = [].
Proof.
  intros s s3.
  pose proof (ask_records_query_as_asked s (lit "And my")
                (SimpleApp.Ok (lit "Normal"))) as H.
  destruct H as (_ & _ & _ & _ & _ & H1 & _ & H3); [reflexivity|].
  split; [exact H1 | exact H3].
Defined.

(** ** Login *)

(** X15. A login attempt that is refused or cannot be completed never
    writes to the local storage and never calls [onLogin]; it leaves an
    error message that is not empty: the backend's [detail] if it gave
    one, ["Login failed"] otherwise, and the network text when no reply
    could be read.  An accepted attempt stores the token under ["token"]
    and the user under ["user"], leaves every other key as it was, calls
    [onLogin] once with the same two values and shows no error of its
    own.  In every case the loading state ends. *)
Theorem login_reply_outcomes (s : Login.State) (r : Login.Reply) :
  Login.waiting s <> 0%nat ->
  let s' := Login.step (Login.Arrive r) s in
  Login.loading s' = false /\
  Login.formData s' = Login.formData s /\
  match r with
  | Login.Http true data =>
      Login.localStorage s' !! lit "token" = Some (Login.token data) /\
      Login.localStorage s' !! lit "user" = Some (Login.user data) /\
      (forall key, key <> lit "token" -> key <> lit "user" ->
                   Login.localStorage s' !! key = Login.localStorage s !! key) /\
      Login.onLogin s'
      = Login.onLogin s ++ [(Login.user data, Login.token data)] /\
      Login.error s' = Login.error s
  | Login.Http false data =>
      Login.localStorage s' = Login.localStorage s /\
      Login.onLogin s' = Login.onLogin s /\
      Login.error s' <> [] /\
      (forall t, Login.detail data = Some t -> t <> [] -> Login.error s' = t) /\
      (Login.detail data = None -> Login.error s' = lit "Login failed")
  | Login.Unreachable =>
      Login.localStorage s' = Login.localStorage s /\
      Login.onLogin s' = Login.onLogin s /\
      Login.error s' = lit "Network error. Please try again."
  end.
Proof.
  intros Hw. simpl. destruct (Login.waiting s) as [|n]; [done|].
  destruct r as [[|] data|]; simpl; repeat split; try done.
  - rewrite lookup_insert_ne by done. apply lookup_insert_eq.
  - apply lookup_insert_eq.
  - intros key H1 H2. by rewrite !lookup_insert_ne.
  - unfold Login.detail_or_default.
    destruct (Login.detail data) as [t|]; [|done]. by destruct t.
  - intros t Ht Hne. unfold Login.detail_or_default. rewrite Ht.
    by destruct t.
  - intros Ht. unfold Login.detail_or_default. by rewrite Ht.
Qed.

Lemma login_reply_outcomes_witness :
  let s := Login.run [ Login.Change Login.username_or_email (lit "ana");
                       Login.Change Login.password (lit "pw");
                       Login.Submit ] (Login.init ∅) in
  let data := {| Login.token := lit "t0k"; Login.user := lit "{}";
                 Login.detail := Some (lit "Invalid credentials") |} in
  Login.localStorage (Login.step (Login.Arrive (Login.Http true data)) s)
    !! lit "token" = Some (lit "t0k") /\
  Login.localStorage (Login.step (Login.Arrive (Login.Http false data)) s)
  = ∅ /\
  Login.error (Login.step (Login.Arrive (Login.Http false data)) s)
  = lit "Invalid credentials".
Proof.
  intros s data. split; [|split].
  - pose proof (login_reply_outcomes s (Login.Http true data)) as H.
    destruct H as (_ & _ & H & _); [discriminate|]. exact H.
  - pose proof (login_reply_outcomes s (Login.Http false data)) as H.
    destruct H as (_ & _ & H & _); [discriminate|]. exact H.
  - pose proof (login_reply_outcomes s (Login.Http false data)) as H.
    destruct H as (_ & _ & _ & _ & _ & H & _); [discriminate|].
    apply (H (lit "Invalid credentials")); [reflexivity | discriminate].
Defined.

Lemma Login_step_quiet (e : Login.Event) (s : Login.State) :
  Login.accepted e = false ->
  Login.localStorage (Login.step e s) = Login.localStorage s /\
  Login.onLogin (Login.step e s) = Login.onLogin s.
Proof.
  destruct e as [name value | | | r]; simpl; try done.
  destruct (Login.waiting s); [done|].
  by destruct r as [[|] data|].
Qed.

Lemma Login_step_counts (e : Login.Event) (s : Login.State) :
  (length (Login.onLogin s) + Login.waiting s <= length (Login.posted s))%nat ->
  (length (Login.onLogin (Login.step e s)) + Login.waiting (Login.step e s)
   <= length (Login.posted (Login.step e s)))%nat.
Proof.
  destruct e as [name value | | | r]; simpl; try done.
  - rewrite length_app. simpl. lia.
  - destruct (Login.waiting s) eqn:E; [by rewrite E|].
    destruct r as [[|] data|]; simpl; rewrite ?length_app; simpl; lia.
Qed.

(** X16. Signing in takes an accepted reply and a submission: along any
    run of the form in which no reply is accepted the local storage is
    exactly what the browser held at the start and [onLogin] is never
    called; and in any run at all [onLogin] is called at most once per
    submission. *)
Theorem no_sign_in_without_acceptance
  (storage : gmap str str) (es : list Login.Event) :
  let s := Login.run es (Login.init storage) in
  (length (Login.onLogin s) <= length (Login.posted s))%nat /\
  (Forall (fun e => Login.accepted e = false) es ->
   Login.localStorage s = storage /\ Login.onLogin s = []).
Proof.
  simpl. split.
  - assert (length (Login.onLogin (Login.run es (Login.init storage)))
            + Login.waiting (Login.run es (Login.init storage))
            <= length (Login.posted (Login.run es (Login.init storage))))%nat;
      [|lia].
    assert (length (Login.onLogin (Login.init storage))
            + Login.waiting (Login.init storage)
            <= length (Login.posted (Login.init storage)))%nat as H0
      by (simpl; lia).
    revert H0. generalize (Login.init storage).
    induction es as [|e es IH]; intros s Hs; simpl; [done|].
    apply IH. by apply Login_step_counts.
  - intros Hes.
    change storage with (Login.localStorage (Login.init storage)) at 2.
    change (@nil (str * str)) with (Login.onLogin (Login.init storage)).
    generalize (Login.init storage).
    induction Hes as [|e es He _ IH]; intros s; simpl; [done|].
    destruct (Login_step_quiet e s He) as [<- <-]. apply IH.
Qed.

Lemma no_sign_in_without_acceptance_witness :
  let data := {| Login.token := lit "t0k"; Login.user := lit "{}";
                 Login.detail := None |} in
  let es := [ Login.Change Login.password (lit "pw"); Login.Submit;
              Login.Arrive (Login.Http false data); Login.Submit;
              Login.Arrive Login.Unreachable ] in
  Login.localStorage (Login.run es (Login.init ∅)) = ∅ /\
  Login.onLogin (Login.run es (Login.init ∅)) = [].
Proof.
  intros data es.
  apply (no_sign_in_without_acceptance ∅ es).
  repeat constructor.
Defined.

(** X17. Typing in a field of the form sets that field and keeps the
    other, clears an error that is showing, and touches neither the local
    storage nor the loading state; changes to the two fields can be made
    in either order, and of two changes to one field the later one
    stands. *)
Theorem typing_sets_one_field
  (s : Login.State) (name other : Login.Field) (value value' : str) :
  let s1 := Login.handleChange name value s in
  form_field name (Login.formData s1) = value /\
  (other <> name ->
   form_field other (Login.formData s1) = form_field other (Login.formData s)) /\
  Login.error s1 = [] /\
  Login.loading s1 = Login.loading s /\
  Login.localStorage s1 = Login.localStorage s /\
  Login.onLogin s1 = Login.onLogin s /\
  (other <> name ->
   Login.formData (Login.handleChange other value' s1)
   = Login.formData
       (Login.handleChange name value (Login.handleChange other value' s))) /\
  Login.formData (Login.handleChange name value' s1)
  = Login.formData (Login.handleChange name value' s).
Proof.
  simpl. repeat split; try done.
  - by destruct name.
  - intros Hne. by destruct name, other.
  - by destruct (Login.error s).
  - intros Hne. by destruct name, other.
  - by destruct name.
Qed.

Lemma typing_sets_one_field_witness :
  let s := Login.run [ Login.Change Login.username_or_email (lit "ana");
                       Login.Submit; Login.Arrive Login.Unreachable ]
             (Login.init ∅) in
  let s1 := Login.handleChange Login.password (lit "pw") s in
  Login.error s <> [] /\
  Login.error s1 = [] /\
  form_field Login.username_or_email (Login.formData s1) = lit "ana".
Proof.
  intros s s1.
  pose proof (typing_sets_one_field s Login.password Login.username_or_email
                (lit "pw") []) as (_ & H2 & H3 & _).
  split; [discriminate|]. split; [exact H3|].
  etransitivity; [apply H2; discriminate | reflexivity].
Defined.

(** ** Titles on the wire *)

(** X18. A new conversation is posted under the title exactly as typed,
    surrounding white space included, with the document type
    ["general"]; a rename posts the title trimmed.  The create leaves the
    title input as typed until it is acknowledged, the rename empties it
    at once; neither touches the store before its reply. *)
Theorem titles_as_posted (w : World) (cid : Ident) (title : str) :
  Js.trim title <> [] ->
  let typed := step (ChangeNewTitle title) w in
  let created := step ClickCreate typed in
  let renamed := step (SaveTitle cid) typed in
  sent created = sent w ++
    [ {| method := POST; endpoint := EConversations;
         body := CreateBody title general |} ] /\
  newTitle (side created) = title /\
  sent renamed = sent w ++
    [ {| method := PUT; endpoint := EConversation cid;
         body := TitleBody (Js.trim title) |} ] /\
  newTitle (side renamed) = [] /\
  store created = store w /\
  store renamed = store w.
Proof.
  intros Ht. simpl.
  assert (step (ChangeNewTitle title) w = setNewTitle title w) as ->.
  { unfold step. simpl. by rewrite useEffect_same. }
  assert (step ClickCreate (setNewTitle title w)
          = issue PCreate
              {| method := POST; endpoint := EConversations;
                 body := CreateBody title general |}
              (setNewTitle title w)) as ->.
  { unfold step, handle, createNewConversation. simpl.
    rewrite (truthy_trim _ Ht). simpl. by rewrite useEffect_same. }
  assert (step (SaveTitle cid) (setNewTitle title w)
          = setNewTitle []
              (updateConversationTitle cid (Js.trim title)
                 (setNewTitle title w))) as ->.
  { unfold step, handle, handleTitleSave. simpl.
    rewrite (truthy_trim _ Ht). by rewrite useEffect_same. }
  repeat split; reflexivity.
Qed.

Lemma titles_as_posted_witness :
  let typed := step (ChangeNewTitle (lit " Scan ")) mount in
  sent (step ClickCreate typed) = sent mount ++
    [ {| method := POST; endpoint := EConversations;
         body := CreateBody (lit " Scan ") general |} ] /\
  sent (step (SaveTitle Sample.c1) typed) = sent mount ++
    [ {| method := PUT; endpoint := EConversation Sample.c1;
         body := TitleBody (lit "Scan") |} ].
Proof.
  intros typed.
  pose proof (titles_as_posted mount Sample.c1 (lit " Scan "))
    as (H1 & _ & H3 & _); [discriminate|].
  split; [exact H1 | exact H3].
Defined.
